(** * obsidian-mcp-server: token-budgeted responses and tokenizer lifecycle

    A shallow embedding of [src/utils/tokenization.ts] (class [TokenCounter]),
    of [tools.ts] (class [BaseToolHandler] and its concrete handlers) and of
    [propertyTools.ts] (the two property tool handlers), followed by the
    properties established about them.  The property manager the property
    tools call (properties.ts) is not among the sources and is modelled from
    the specification. *)

From stdpp Require Import base list strings gmap pretty sorting.
From Stdlib Require Import ZArith Lia Ascii.

Set Warnings "-register-all".

(** ** JavaScript values *)

(** A JavaScript [number] as it occurs as a token budget: the result of
    [parseInt] is an integer or [NaN]. *)
Inductive JsNum : Type :=
| Num (z : Z)
| NaN.

Section js_numbers.
Local Open Scope Z_scope.

(** [n <= l] for an array length [n]; every comparison with [NaN] is false. *)
Definition js_le (n : nat) (l : JsNum) : bool :=
  match l with
  | Num z => Z.of_nat n <=? z
  | NaN => false
  end.

(** [n > l] for an array length [n]. *)
Definition js_gt (n : nat) (l : JsNum) : bool :=
  match l with
  | Num z => z <? Z.of_nat n
  | NaN => false
  end.

(** [l - n] for an array length [n]. *)
Definition js_sub (l : JsNum) (n : nat) : JsNum :=
  match l with
  | Num z => Num (z - Z.of_nat n)
  | NaN => NaN
  end.

(** [xs.slice(0, e)]: the end index is converted to an integer ([NaN] becomes
    0), a negative end counts from the end of the array, and the bounds are
    clamped to [0 .. xs.length]. *)
Definition slice0 {A : Type} (xs : list A) (e : JsNum) : list A :=
  let len := Z.of_nat (length xs) in
  let relativeEnd := match e with Num z => z | NaN => 0 end in
  let final :=
    if relativeEnd <? 0 then Z.max (len + relativeEnd) 0
    else Z.min relativeEnd len in
  take (Z.to_nat final) xs.

End js_numbers.

(** The values a tool result or a thrown value can be.  [JError] is an
    instance of [Error] that is not an [ObsidianError]; [JObsidianError] is an
    instance of [ObsidianError] (a subclass of [Error] declared in
    [types.ts]), recorded by the arguments given to its constructor and the
    stack captured when it was constructed. *)
Inductive JsValue : Type :=
| JUndefined
| JNull
| JBool (b : bool)
| JNumber (n : Z)   (* no definition below inspects a number *)
| JBigInt (n : Z)
| JString (s : string)
| JBuffer (bytes : list Byte.byte)
| JArray (items : list JsValue)
| JError (message : string) (stack : option string)
| JObsidianError (message : string) (code : Z) (data : JsValue)
                 (stack : option string)
| JObject (fields : list (string * JsValue)).

(** A completed call either returns a value or throws one. *)
Inductive Outcome (A : Type) : Type :=
| Returns (a : A)
| Throws (e : JsValue).
Arguments Returns {A} a.
Arguments Throws {A} e.

(** Sequencing: an exception ends the computation ([x ← m; k] below). *)
#[export] Instance Outcome_bind : MBind Outcome := λ A B k m,
  match m with
  | Returns a => k a
  | Throws e => Throws e
  end.

#[export] Instance Outcome_ret : MRet Outcome := λ A a, Returns a.

(** [typeof v === 'string'] *)
Definition typeof_string (v : JsValue) : bool :=
  match v with JString _ => true | _ => false end.

(** [v instanceof Buffer] *)
Definition instanceof_Buffer (v : JsValue) : bool :=
  match v with JBuffer _ => true | _ => false end.

(** [Array.isArray(v)] *)
Definition Array_isArray (v : JsValue) : bool :=
  match v with JArray _ => true | _ => false end.

(** [v instanceof Error]; an [ObsidianError] is an [Error] too. *)
Definition instanceof_Error (v : JsValue) : bool :=
  match v with JError _ _ | JObsidianError _ _ _ _ => true | _ => false end.

(** [v instanceof ObsidianError] *)
Definition instanceof_ObsidianError (v : JsValue) : bool :=
  match v with JObsidianError _ _ _ _ => true | _ => false end.

(** The string held by a string value. *)
Definition string_value (v : JsValue) : string :=
  match v with JString s => s | _ => "" end.

Definition buffer_bytes (v : JsValue) : list Byte.byte :=
  match v with JBuffer b => b | _ => [] end.

Definition array_items (v : JsValue) : list JsValue :=
  match v with JArray items => items | _ => [] end.

(** [e.message] of an [Error]. *)
Definition error_message (v : JsValue) : string :=
  match v with
  | JError m _ | JObsidianError m _ _ _ => m
  | _ => ""
  end.

(** [e.stack] of an [Error]: a string, or undefined. *)
Definition error_stack (v : JsValue) : option string :=
  match v with
  | JError _ st | JObsidianError _ _ _ st => st
  | _ => None
  end.

(** A [string] variable that may hold [undefined] at run time. *)
Definition JsText : Type := option string.

(** ** The runtime and the tokenizer library *)

(** The result of [JSON.stringify(v, null, 2)]: a string, [undefined] (for
    [undefined], functions and symbols), or an exception (BigInt values,
    cyclic structures). *)
Inductive StringifyOutcome : Type :=
| SString (s : string)
| SUndefined
| SThrows (e : JsValue).

(** What the code takes from the JavaScript runtime. *)
Class JsRuntime : Type := {
  (** [process.env.MAX_TOKENS] *)
  process_env_MAX_TOKENS : option string;
  (** [parseInt(s)] *)
  parseInt : string → JsNum;
  (** [JSON.stringify(v, null, 2)] *)
  JSON_stringify2 : JsValue → StringifyOutcome;
  (** [String(v)] *)
  String_of : JsValue → string;
  (** [buf.toString('utf-8')] *)
  Buffer_toString_utf8 : list Byte.byte → string;
  (** the stack recorded by [new ObsidianError(...)] *)
  captured_stack : option string
}.

(** The tokenizer returned by [encoding_for_model("gpt-4")] (package
    [tiktoken]), as the code's comments take it: [encode s] is the token
    array [encode] returns for a text it accepts, and [decode ts] is the
    string that [decode(ts) + ...] puts in front of the marker.  The
    definitions over this class say what the methods compute when [encode]
    returns; the calls with their error paths are in [Binding] below.  The
    repository does not determine what the library does when [encode]
    receives [undefined] or is called after [free()]; both are fields. *)
Class Tiktoken : Type := {
  encode : string → list nat;
  decode : list nat → string;
  encode_undefined : Outcome (list nat);
  encode_after_free : string → Outcome (list nat)
}.

(** [tokenizer.encode(text)] on a live tokenizer that accepts the text, for
    a [text] that may be [undefined] at run time. *)
Definition tokenizer_encode `{Tiktoken} (text : JsText) : Outcome (list nat) :=
  match text with
  | Some s => Returns (encode s)
  | None => encode_undefined
  end.

(** The tokenizer object as the [tiktoken] package provides it.
    [encode(text)], called with its default arguments as the code calls it,
    throws on a text that holds a special token (such as [<|endoftext|>]) and
    otherwise returns the tokens; [decode(tokens)] returns the bytes of the
    tokens as a [Uint8Array], not a string.  What [encode] does with
    [undefined] or after [free()] is the library's. *)
Class TiktokenBinding : Type := {
  wasm_encode : string → Outcome (list N);
  wasm_decode : list N → list N;
  wasm_encode_undefined : Outcome (list N);
  wasm_encode_after_free : JsText → Outcome (list N)
}.

(** [bytes + s] converts the [Uint8Array] with its [toString()]: the decimal
    values of its elements joined with commas. *)
Definition Uint8Array_toString (bytes : list N) : string :=
  String.concat "," (pretty <$> bytes).

(** ** [TokenCounter] (tokenization.ts) on a live tokenizer *)
Module TokenCounter.
Section methods.
Context {rt : JsRuntime} {tk : Tiktoken}.

(** [parseInt(process.env.MAX_TOKENS ?? '20000')] *)
Definition MAX_TOKENS : JsNum :=
  parseInt (default "20000" process_env_MAX_TOKENS).

(** ["\n\n[Response truncated due to length]"] *)
Definition TRUNCATION_MESSAGE : string :=
  String "010"%char (String "010"%char "[Response truncated due to length]").

Definition countTokens (text : string) : nat :=
  length (encode text).

Definition truncateToTokenLimit (text : string) (limit : JsNum) : string :=
  let tokens := encode text in
  if js_le (length tokens) limit then text
  else
    let messageTokens := encode TRUNCATION_MESSAGE in
    let availableTokens := js_sub limit (length messageTokens) in
    let truncatedText := decode (slice0 tokens availableTokens) in
    truncatedText +:+ TRUNCATION_MESSAGE.

(** The call [truncateToTokenLimit(text)], with the default [limit]. *)
Definition truncateToTokenLimit_default (text : string) : string :=
  truncateToTokenLimit text MAX_TOKENS.

End methods.
End TokenCounter.

(** ** [BaseToolHandler] (tools.ts) on a live tokenizer *)

(** One element of the array a tool returns: [{ type: "text", text }]. *)
Record TextContent : Type := {
  type : string;
  text : JsText
}.

Module BaseToolHandler.
Section methods.
Context {rt : JsRuntime} {tk : Tiktoken}.

Definition MAX_TOKENS : JsNum :=
  parseInt (default "20000" process_env_MAX_TOKENS).

Definition TRUNCATION_MESSAGE : string :=
  String "010"%char (String "010"%char "[Response truncated due to length]").

Definition countTokens (text : string) : nat :=
  length (encode text).

Definition truncateToTokenLimit (text : string) : string :=
  let tokens := encode text in
  if js_le (length tokens) MAX_TOKENS then text
  else
    let messageTokens := encode TRUNCATION_MESSAGE in
    let availableTokens := js_sub MAX_TOKENS (length messageTokens) in
    let truncatedText := decode (slice0 tokens availableTokens) in
    truncatedText +:+ TRUNCATION_MESSAGE.

(** [content.join('\n')] for an array whose items are all strings. *)
Definition Array_join_strings (items : list JsValue) : string :=
  String.concat (String "010"%char "") (string_value <$> items).

(** [content.stack || ''] *)
Definition stack_or_empty (content : JsValue) : string :=
  match error_stack content with
  | Some st => st
  | None => ""
  end.

(** The first half of [createResponse]: the value of [text] after the chain
    of type tests.  [None] is [undefined], which [JSON.stringify] returns
    without throwing for some values. *)
Definition createResponse_text (content : JsValue) : JsText :=
  if typeof_string content then
    Some (string_value content)
  else if instanceof_Buffer content then
    Some (Buffer_toString_utf8 (buffer_bytes content))
  else if Array_isArray content && forallb typeof_string (array_items content) then
    Some (Array_join_strings (array_items content))
  else if instanceof_Error content then
    Some ("Error: " +:+ error_message content +:+ String "010"%char "" +:+
          stack_or_empty content)
  else
    match JSON_stringify2 content with
    | SString s => Some s
    | SUndefined => None
    | SThrows _ => Some (String_of content)
    end.

(** [this.countTokens(text)] and [this.truncateToTokenLimit(text)] as
    [createResponse] calls them: for a string they are the two methods above;
    for [undefined] the result is the library's. *)
Definition countTokens_js (text : JsText) : Outcome nat :=
  tokens ← tokenizer_encode text; mret (length tokens).

Definition truncateToTokenLimit_js (text : JsText) : Outcome JsText :=
  match text with
  | Some s => mret (Some (truncateToTokenLimit s))
  | None =>
    tokens ← encode_undefined;
    if js_le (length tokens) MAX_TOKENS then mret None
    else
      let messageTokens := encode TRUNCATION_MESSAGE in
      let availableTokens := js_sub MAX_TOKENS (length messageTokens) in
      let truncatedText := decode (slice0 tokens availableTokens) in
      mret (Some (truncatedText +:+ TRUNCATION_MESSAGE))
  end.

(** The [console.debug] entry of [createResponse]. *)
Record DebugEntry : Type := {
  debug_tool : string;
  debug_original_tokens : nat;
  debug_truncated_tokens : nat
}.

(** [createResponse(content)] of the handler called [name]: the returned
    array and the debug entries written. *)
Definition createResponse_logged (name : string) (content : JsValue)
  : Outcome (list TextContent * list DebugEntry) :=
  let text := createResponse_text content in
  originalTokenCount ← countTokens_js text;
  truncatedText ← truncateToTokenLimit_js text;
  finalTokenCount ← countTokens_js truncatedText;
  let log :=
    if js_gt originalTokenCount MAX_TOKENS then
      [ {| debug_tool := name;
           debug_original_tokens := originalTokenCount;
           debug_truncated_tokens := finalTokenCount |} ]
    else [] in
  mret ([ {| type := "text"; text := truncatedText |} ], log).

Definition createResponse (name : string) (content : JsValue)
  : Outcome (list TextContent) :=
  r ← createResponse_logged name content; mret (fst r).

(** [error.stack] as a value. *)
Definition stack_value (error : JsValue) : JsValue :=
  match error_stack error with
  | Some st => JString st
  | None => JUndefined
  end.

(** [handleError(error): never]. *)
Definition handleError {A : Type} (name : string) (error : JsValue) : Outcome A :=
  if instanceof_ObsidianError error then
    Throws error
  else if instanceof_Error error then
    Throws (JObsidianError
              ("Tool '" +:+ name +:+ "' execution failed: " +:+ error_message error)
              500%Z
              (JObject [("originalError", stack_value error)])
              captured_stack)
  else
    Throws (JObsidianError
              ("Tool '" +:+ name +:+ "' execution failed with unknown error")
              500%Z
              (JObject [("error", error)])
              captured_stack).

(** The body shared by every [runTool]:
    [try { const r = await operation; return this.createResponse(r); }
     catch (error) { return this.handleError(error); }]. *)
Definition runTool (name : string) (operation : Outcome JsValue)
  : Outcome (list TextContent) :=
  match (result ← operation; createResponse name result) with
  | Returns response => Returns response
  | Throws error => handleError name error
  end.

End methods.
End BaseToolHandler.

(** ** The methods of both classes on the [tiktoken] binding *)
Module Binding.
Section methods.
Context {rt : JsRuntime} {b : TiktokenBinding}.

(** [this.tokenizer.encode(text)] on a live tokenizer. *)
Definition encode_js (text : JsText) : Outcome (list N) :=
  match text with
  | Some s => wasm_encode s
  | None => wasm_encode_undefined
  end.

(** [countTokens(text)] of [TokenCounter] and of [BaseToolHandler]. *)
Definition countTokens (text : JsText) : Outcome nat :=
  tokens ← encode_js text; mret (length tokens).

(** [truncateToTokenLimit(text, limit)] of [TokenCounter]; the copy in
    [BaseToolHandler] is the call with [limit = MAX_TOKENS].  The value of
    [decode] is a [Uint8Array], which [+] converts to a string. *)
Definition truncateToTokenLimit (text : JsText) (limit : JsNum) : Outcome JsText :=
  tokens ← encode_js text;
  if js_le (length tokens) limit then mret text
  else
    messageTokens ← wasm_encode TokenCounter.TRUNCATION_MESSAGE;
    let availableTokens := js_sub limit (length messageTokens) in
    let truncatedText := wasm_decode (slice0 tokens availableTokens) in
    mret (Some (Uint8Array_toString truncatedText
                +:+ TokenCounter.TRUNCATION_MESSAGE)).

(** [createResponse(content)] of the handler called [name]: the returned
    array and the debug entries written. *)
Definition createResponse_logged (name : string) (content : JsValue)
  : Outcome (list TextContent * list BaseToolHandler.DebugEntry) :=
  let text := BaseToolHandler.createResponse_text content in
  originalTokenCount ← countTokens text;
  truncatedText ← truncateToTokenLimit text BaseToolHandler.MAX_TOKENS;
  finalTokenCount ← countTokens truncatedText;
  let log :=
    if js_gt originalTokenCount BaseToolHandler.MAX_TOKENS then
      [ {| BaseToolHandler.debug_tool := name;
           BaseToolHandler.debug_original_tokens := originalTokenCount;
           BaseToolHandler.debug_truncated_tokens := finalTokenCount |} ]
    else [] in
  mret ([ {| type := "text"; text := truncatedText |} ], log).

Definition createResponse (name : string) (content : JsValue)
  : Outcome (list TextContent) :=
  r ← createResponse_logged name content; mret (fst r).

(** The body shared by every [runTool]; an exception of [createResponse] is
    caught like one of the operation. *)
Definition runTool (name : string) (operation : Outcome JsValue)
  : Outcome (list TextContent) :=
  match (result ← operation; createResponse name result) with
  | Returns response => Returns response
  | Throws error => BaseToolHandler.handleError name error
  end.

End methods.

(** The binding seen through the two functions the code's comments speak
    of: the tokens of an accepted text, and the string that stands in front
    of the marker. *)
Definition accepted_view (b : TiktokenBinding) : Tiktoken := {|
  encode := λ s,
    match wasm_encode s with
    | Returns ts => N.to_nat <$> ts
    | Throws _ => []
    end;
  decode := λ ts, Uint8Array_toString (wasm_decode (N.of_nat <$> ts));
  encode_undefined :=
    match wasm_encode_undefined with
    | Returns ts => Returns (N.to_nat <$> ts)
    | Throws e => Throws e
    end;
  encode_after_free := λ s,
    match wasm_encode_after_free (Some s) with
    | Returns ts => Returns (N.to_nat <$> ts)
    | Throws e => Throws e
    end
|}.

End Binding.

(** The handlers of tools.ts and propertyTools.ts pass these names to
    [super(name, client)]. *)
Module TOOL_NAMES.
Definition LIST_FILES_IN_VAULT : string := "obsidian_list_files_in_vault".
Definition LIST_FILES_IN_DIR : string := "obsidian_list_files_in_dir".
Definition GET_FILE_CONTENTS : string := "obsidian_get_file_contents".
Definition FIND_IN_FILE : string := "obsidian_find_in_file".
Definition APPEND_CONTENT : string := "obsidian_append_content".
Definition PATCH_CONTENT : string := "obsidian_patch_content".
Definition COMPLEX_SEARCH : string := "obsidian_complex_search".
Definition GET_PROPERTIES : string := "obsidian_get_properties".
Definition UPDATE_PROPERTIES : string := "obsidian_update_properties".
End TOOL_NAMES.

(** ** Tokenizer lifecycle: construction, process listeners, release *)
Module Lifecycle.

Inductive ProcessEvent : Type :=
| EvExit
| EvSIGINT
| EvSIGTERM
| EvUncaughtException.

#[export] Instance ProcessEvent_eq_dec : EqDecision ProcessEvent.
Proof. solve_decision. Defined.

(** A tokenizer object of the library; [frees] counts the [free()] calls it
    has received. *)
Record TokenizerHandle : Type := { frees : nat }.

Definition free (t : TokenizerHandle) : TokenizerHandle :=
  {| frees := S (frees t) |}.

Inductive Class : Type :=
| TokenCounterClass
| BaseToolHandlerClass (name : string).

(** An instance of [TokenCounter] or of a subclass of [BaseToolHandler]:
    both have the private fields [tokenizer] and [isShuttingDown].  The field
    [tokenizer] is assigned once, by its initializer, and holds an object. *)
Record Obj : Type := {
  class : Class;
  tokenizer : TokenizerHandle;
  isShuttingDown : bool
}.

(** The process: how many times [encoding_for_model] has been called, the
    objects constructed so far, and the listeners attached with
    [process.on], each the cleanup closure of the object at that index. *)
Record Process : Type := {
  acquired : nat;
  heap : list Obj;
  listeners : list (ProcessEvent * nat)
}.

Definition boot : Process :=
  {| acquired := 0; heap := []; listeners := [] |}.

(** [encoding_for_model("gpt-4")] *)
Definition encoding_for_model (p : Process) : Process * TokenizerHandle :=
  ({| acquired := S (acquired p); heap := heap p; listeners := listeners p |},
   {| frees := 0 |}).

(** The four [process.on] calls of both constructors. *)
Definition attach (i : nat) (ls : list (ProcessEvent * nat))
  : list (ProcessEvent * nat) :=
  ls ++ [(EvExit, i); (EvSIGINT, i); (EvSIGTERM, i); (EvUncaughtException, i)].

(** [process.off(ev, listener)] removes the most recently added registration
    of that listener for [ev], if there is one. *)
Fixpoint remove_first (x : ProcessEvent * nat) (ls : list (ProcessEvent * nat))
  : list (ProcessEvent * nat) :=
  match ls with
  | [] => []
  | y :: ls' => if decide (x = y) then ls' else y :: remove_first x ls'
  end.

Definition process_off (ev : ProcessEvent) (i : nat)
  (ls : list (ProcessEvent * nat)) : list (ProcessEvent * nat) :=
  reverse (remove_first (ev, i) (reverse ls)).

(** [TokenCounter.removeListeners] *)
Definition removeListeners (i : nat) (p : Process) : Process :=
  {| acquired := acquired p;
     heap := heap p;
     listeners :=
       process_off EvUncaughtException i
         (process_off EvSIGTERM i
            (process_off EvSIGINT i
               (process_off EvExit i (listeners p)))) |}.

(** Construction: the field initializer acquires the tokenizer, then the
    constructor body attaches the listeners. *)
Definition construct (c : Class) (p : Process) : Process :=
  let '(p1, t) := encoding_for_model p in
  let i := length (heap p1) in
  {| acquired := acquired p1;
     heap := heap p1 ++ [ {| class := c; tokenizer := t; isShuttingDown := false |} ];
     listeners := attach i (listeners p1) |}.

Definition new_TokenCounter (p : Process) : Process :=
  construct TokenCounterClass p.

Definition new_BaseToolHandler (name : string) (p : Process) : Process :=
  construct (BaseToolHandlerClass name) p.

Definition store (i : nat) (o : Obj) (p : Process) : Process :=
  {| acquired := acquired p; heap := <[i := o]> (heap p); listeners := listeners p |}.

(** [this.cleanupListener] of the [TokenCounter] at index [i].  The test
    [if (this.tokenizer)] is on an object and holds. *)
Definition TokenCounter_cleanupListener (i : nat) (p : Process) : Process :=
  match heap p !! i with
  | Some o =>
    if isShuttingDown o then p
    else
      removeListeners i
        (store i {| class := class o;
                    tokenizer := free (tokenizer o);
                    isShuttingDown := true |} p)
  | None => p
  end.

(** The closure [cleanup] of the [BaseToolHandler] at index [i]. *)
Definition BaseToolHandler_cleanup (i : nat) (p : Process) : Process :=
  match heap p !! i with
  | Some o =>
    if isShuttingDown o then p
    else
      store i {| class := class o;
                 tokenizer := free (tokenizer o);
                 isShuttingDown := true |} p
  | None => p
  end.

(** Calling the listener that the object at index [i] registered. *)
Definition call_listener (p : Process) (i : nat) : Process :=
  match heap p !! i with
  | Some o =>
    match class o with
    | TokenCounterClass => TokenCounter_cleanupListener i p
    | BaseToolHandlerClass _ => BaseToolHandler_cleanup i p
    end
  | None => p
  end.

(** The process emits [ev]: the listeners registered for [ev] at that moment
    are called in registration order. *)
Definition emit (ev : ProcessEvent) (p : Process) : Process :=
  foldl call_listener p
    (snd <$> filter (λ l, fst l = ev) (listeners p)).

(** [tokenCounter.cleanup()]; only [TokenCounter] has this method. *)
Definition cleanup (i : nat) (p : Process) : Process :=
  match heap p !! i with
  | Some o =>
    match class o with
    | TokenCounterClass => TokenCounter_cleanupListener i p
    | BaseToolHandlerClass _ => p
    end
  | None => p
  end.

Section methods.
Context {b : TiktokenBinding}.

(** [this.tokenizer.encode(text)] on the tokenizer [t], live or freed. *)
Definition handle_encode (t : TokenizerHandle) (text : JsText)
  : Outcome (list N) :=
  match frees t with
  | O => Binding.encode_js text
  | S _ => wasm_encode_after_free text
  end.

(** [countTokens(text)] of either class, on the object [o]. *)
Definition countTokens (o : Obj) (text : JsText) : Outcome nat :=
  tokens ← handle_encode (tokenizer o) text; mret (length tokens).

(** [truncateToTokenLimit(text, limit)] of [TokenCounter] on the object [o].
    [decode] is reached only after two calls of [encode] on the same
    tokenizer have returned. *)
Definition truncateToTokenLimit (o : Obj) (text : JsText) (limit : JsNum)
  : Outcome JsText :=
  tokens ← handle_encode (tokenizer o) text;
  if js_le (length tokens) limit then mret text
  else
    messageTokens ←
      handle_encode (tokenizer o) (Some TokenCounter.TRUNCATION_MESSAGE);
    let availableTokens := js_sub limit (length messageTokens) in
    let truncatedText := wasm_decode (slice0 tokens availableTokens) in
    mret (Some (Uint8Array_toString truncatedText
                +:+ TokenCounter.TRUNCATION_MESSAGE)).

End methods.

(** What a program does to the process. *)
Inductive Op : Type :=
| NewTokenCounter
| NewBaseToolHandler (name : string)
| CallCountTokens (i : nat) (text : string)
| CallTruncate (i : nat) (text : string) (limit : JsNum)
| CallCleanup (i : nat)
| Emit (ev : ProcessEvent).

(** [countTokens] and [truncateToTokenLimit] assign no field. *)
Definition step (p : Process) (op : Op) : Process :=
  match op with
  | NewTokenCounter => new_TokenCounter p
  | NewBaseToolHandler name => new_BaseToolHandler name p
  | CallCountTokens _ _ => p
  | CallTruncate _ _ _ => p
  | CallCleanup i => cleanup i p
  | Emit ev => emit ev p
  end.

Definition run (ops : list Op) : Process :=
  foldl step boot ops.

(** The operations that construct an object. *)
Definition is_construction (op : Op) : bool :=
  match op with
  | NewTokenCounter | NewBaseToolHandler _ => true
  | _ => false
  end.

(** The calls of [countTokens] and [truncateToTokenLimit]. *)
Definition is_use (op : Op) : bool :=
  match op with
  | CallCountTokens _ _ | CallTruncate _ _ _ => true
  | _ => false
  end.

(** The operations that can release a tokenizer. *)
Definition is_release (op : Op) : bool :=
  match op with
  | CallCleanup _ | Emit _ => true
  | _ => false
  end.

(** The invariant of the lifecycle: a tokenizer has been freed once if its
    owner's flag is set, and never otherwise. *)
Definition consistent (o : Obj) : Prop :=
  frees (tokenizer o) = if isShuttingDown o then 1 else 0.

Definition Inv (p : Process) : Prop :=
  ∀ i o, heap p !! i = Some o → consistent o.

(** The object at index [i] is [o] and its flag is set. *)
Definition settled (i : nat) (o : Obj) (p : Process) : Prop :=
  heap p !! i = Some o ∧ isShuttingDown o = true.

(** An object whose flag is not set still has its listener attached for
    every event. *)
Definition listening (p : Process) : Prop :=
  ∀ i o ev, heap p !! i = Some o → isShuttingDown o = false →
            (ev, i) ∈ listeners p.

End Lifecycle.

(** ** Frontmatter properties (properties.ts, propertyTypes.ts) *)
Module PropertyManager.

(** Modelled from the spec: the typed view of a note's metadata
    ([ObsidianProperties], declared in propertyTypes.ts, which is not among
    the sources).  Scalar fields are optional; array fields default to the
    empty array; [custom] is an open mapping. *)
Record ObsidianProperties : Type := {
  title : option string;
  created : option string;
  modified : option string;
  author : option string;
  type : list string;
  tags : list string;
  status : list string;
  version : option string;
  platform : option string;
  repository : option string;
  dependencies : list string;
  sources : list string;
  urls : list string;
  papers : list string;
  custom : gmap string JsValue
}.

(** Modelled from the spec: [Partial<ObsidianProperties>], the update a
    caller supplies; every field may be absent. *)
Module Partial.
Record t : Type := {
  title : option string;
  created : option string;
  modified : option string;
  author : option string;
  type : option (list string);
  tags : option (list string);
  status : option (list string);
  version : option string;
  platform : option string;
  repository : option string;
  dependencies : option (list string);
  sources : option (list string);
  urls : option (list string);
  papers : option (list string);
  custom : option (gmap string JsValue)
}.
End Partial.

(** Modelled from the spec: a stored note is its body text and its
    frontmatter block, which is either malformed or a property set. *)
Inductive Frontmatter : Type :=
| Malformed
| Block (p : ObsidianProperties).

(** Modelled from the spec: [FrontmatterDocument], the body text with the
    frontmatter block. *)
Record FrontmatterDocument : Type := {
  body : string;
  frontmatter : Frontmatter
}.

(** Modelled from the spec: the error taxonomy of section 7. *)
Inductive PropertyError : Type :=
| ValidationError (fields : list string)
| ParseError
| NotFoundError
| InfraError.

(** Modelled from the spec: a call of the manager succeeds with a value or
    fails with one of these errors. *)
Inductive Result (A : Type) : Type :=
| Ok (a : A)
| Err (e : PropertyError).
Arguments Ok {A} a.
Arguments Err {A} e.

(** Modelled from the spec: the confirmation [{ message }] of an update. *)
Record Confirmation : Type := { message : string }.

(** Modelled from the spec: merge rule 1, a scalar present in [incoming]
    replaces the existing one. *)
Definition merge_scalar (existing incoming : option string) : option string :=
  match incoming with
  | Some v => Some v
  | None => existing
  end.

(** Modelled from the spec: merge rule 2, [created] is kept once set. *)
Definition merge_created (existing incoming : option string) : option string :=
  match existing with
  | Some c => Some c
  | None => incoming
  end.

(** Modelled from the spec: merge rule 4, the existing values followed by
    the incoming values not already present. *)
Definition insert_if_absent (acc : list string) (x : string) : list string :=
  if decide (x ∈ acc) then acc else acc ++ [x].

(** Modelled from the spec: merge rule 4 for one array field; an absent
    incoming array adds nothing. *)
Definition merge_array (existing : list string) (incoming : option (list string))
  : list string :=
  foldl insert_if_absent existing (default [] incoming).

(** Modelled from the spec: merge rule 5, keys of [incoming] overwrite
    same-named keys; the other existing keys are retained. *)
Definition merge_custom (existing : gmap string JsValue)
  (incoming : option (gmap string JsValue)) : gmap string JsValue :=
  match incoming with
  | Some m => m ∪ existing
  | None => existing
  end.

(** Modelled from the spec: the merge algorithm of section 4.3, steps 1 to
    5, the method of properties.ts that [updateProperties] applies.  [now] is
    the current timestamp. *)
Definition mergeProperties (now : string) (existing : ObsidianProperties)
  (incoming : Partial.t) : ObsidianProperties :=
  {| title := merge_scalar (title existing) (Partial.title incoming);
     created := merge_created (created existing) (Partial.created incoming);
     modified := Some now;
     author := merge_scalar (author existing) (Partial.author incoming);
     type := merge_array (type existing) (Partial.type incoming);
     tags := merge_array (tags existing) (Partial.tags incoming);
     status := merge_array (status existing) (Partial.status incoming);
     version := merge_scalar (version existing) (Partial.version incoming);
     platform := merge_scalar (platform existing) (Partial.platform incoming);
     repository := merge_scalar (repository existing) (Partial.repository incoming);
     dependencies := merge_array (dependencies existing) (Partial.dependencies incoming);
     sources := merge_array (sources existing) (Partial.sources incoming);
     urls := merge_array (urls existing) (Partial.urls incoming);
     papers := merge_array (papers existing) (Partial.papers incoming);
     custom := merge_custom (custom existing) (Partial.custom incoming) |}.

(** Modelled from the spec: the enumeration of [type]. *)
Definition type_enum : list string :=
  ["concept"; "architecture"; "specification"; "protocol"; "api"; "research";
   "implementation"; "guide"; "reference"].

(** Modelled from the spec: the enumeration of [status]. *)
Definition status_enum : list string :=
  ["draft"; "in-progress"; "review"; "complete"].

(** Modelled from the spec: a tag must start with [#] (the pattern [^#] of
    the tool's input schema). *)
Definition starts_with_hash (s : string) : bool :=
  match s with
  | String c _ => bool_decide (c = "#"%char)
  | EmptyString => false
  end.

Section manager.
(** What "syntactically URI-like" accepts is not fixed by the spec. *)
Variable is_uri : string → bool.
(** The accessor's [writeNote]: [None] when the write succeeds, otherwise the
    vault it leaves behind when it raises an I/O error. *)
Variable writeNote_fails :
  gmap string FrontmatterDocument → string → FrontmatterDocument →
  option (gmap string FrontmatterDocument).
(** The text of the confirmation for a path. *)
Variable confirmation_text : string → string.

(** Modelled from the spec: a failed check contributes its field name. *)
Definition check (field : string) (ok : bool) : list string :=
  if ok then [] else [field].

(** Modelled from the spec: the schema of section 4.3; the result lists the
    offending fields and is empty for a valid property set. *)
Definition validate (p : ObsidianProperties) : list string :=
  check "type" (forallb (λ x, bool_decide (x ∈ type_enum)) (type p)) ++
  check "tags" (forallb starts_with_hash (tags p)) ++
  check "status" (forallb (λ x, bool_decide (x ∈ status_enum)) (status p)) ++
  check "repository" (from_option is_uri true (repository p)) ++
  check "urls" (forallb is_uri (urls p)).

(** Modelled from the spec: [PropertyManager.getProperties] of
    properties.ts (section 4.4). *)
Definition getProperties (path : string)
  (vault : gmap string FrontmatterDocument) : Result ObsidianProperties :=
  match vault !! path with
  | None => Err NotFoundError
  | Some doc =>
    match frontmatter doc with
    | Malformed => Err ParseError
    | Block p => Ok p
    end
  end.

(** Modelled from the spec: [PropertyManager.updateProperties] of
    properties.ts (section 4.4): fetch, merge, validate, then write the
    merged block in front of the untouched body.  The result is the vault
    after the call and what the call returned. *)
Definition updateProperties (now : string) (path : string) (incoming : Partial.t)
  (vault : gmap string FrontmatterDocument)
  : gmap string FrontmatterDocument * Result Confirmation :=
  match vault !! path with
  | None => (vault, Err NotFoundError)
  | Some doc =>
    match frontmatter doc with
    | Malformed => (vault, Err ParseError)
    | Block existing =>
      let merged := mergeProperties now existing incoming in
      match validate merged with
      | [] =>
        let combined := {| body := body doc; frontmatter := Block merged |} in
        match writeNote_fails vault path combined with
        | None =>
          (<[path := combined]> vault,
           Ok {| message := confirmation_text path |})
        | Some vault' => (vault', Err InfraError)
        end
      | fields => (vault, Err (ValidationError fields))
      end
    end
  end.

End manager.
End PropertyManager.

(** ** The property tool handlers (propertyTools.ts) *)
Module UpdatePropertiesToolHandler.
Section tool.
Context {rt : JsRuntime} {tk : Tiktoken}.
Variable is_uri : string → bool.
Variable writeNote_fails :
  gmap string PropertyManager.FrontmatterDocument → string →
  PropertyManager.FrontmatterDocument →
  option (gmap string PropertyManager.FrontmatterDocument).
Variable confirmation_text : string → string.
(** The error object properties.ts throws for each kind of failure. *)
Variable raise : PropertyManager.PropertyError → JsValue.

(** [runTool(args)]: the vault after the call and what the call returned. *)
Definition runTool (now : string) (filepath : string)
  (properties : PropertyManager.Partial.t)
  (vault : gmap string PropertyManager.FrontmatterDocument)
  : gmap string PropertyManager.FrontmatterDocument * Outcome (list TextContent) :=
  let '(vault', r) :=
    PropertyManager.updateProperties is_uri writeNote_fails confirmation_text
      now filepath properties vault in
  (vault',
   BaseToolHandler.runTool TOOL_NAMES.UPDATE_PROPERTIES
     match r with
     | PropertyManager.Ok c =>
       Returns (JObject [("message", JString (PropertyManager.message c))])
     | PropertyManager.Err e => Throws (raise e)
     end).

End tool.
End UpdatePropertiesToolHandler.

(** ** A concrete runtime and tokenizer, to evaluate the definitions *)
Module Reference.

(** One token per character: the token is the character's code. *)
Definition char_encode (s : string) : list nat :=
  nat_of_ascii <$> String.list_ascii_of_string s.

Definition char_decode (ts : list nat) : string :=
  String.string_of_list_ascii (ascii_of_nat <$> ts).

#[export] Instance char_tokenizer : Tiktoken := {|
  encode := char_encode;
  decode := char_decode;
  encode_undefined := Throws (JError "text is not a string" None);
  encode_after_free := λ _, Throws (JError "null pointer passed to rust" None)
|}.

(** [parseInt] on a string of decimal digits; [NaN] when it starts with none. *)
Definition digit_of (c : ascii) : option Z :=
  let n := nat_of_ascii c in
  if bool_decide (48 ≤ n ≤ 57) then Some (Z.of_nat (n - 48)) else None.

Fixpoint parse_digits (acc : option Z) (s : string) : option Z :=
  match s with
  | EmptyString => acc
  | String c s' =>
    match digit_of c with
    | Some d => parse_digits (Some (from_option (λ a, a * 10 + d) d acc)%Z) s'
    | None => acc
    end
  end.

Definition parseInt_decimal (s : string) : JsNum :=
  match parse_digits None s with
  | Some z => Num z
  | None => NaN
  end.

(** [JSON.stringify(v, null, 2)] on the values of the examples: scalars, the
    empty array and object, and an object with one string field whose text
    needs no escaping; a BigInt throws, [undefined] gives [undefined]. *)
Definition dquote : string := String (ascii_of_nat 34) "".

Definition quote (s : string) : string := dquote +:+ s +:+ dquote.

Definition scalar_json (v : JsValue) : option string :=
  match v with
  | JNull | JUndefined => Some "null"
  | JBool true => Some "true"
  | JBool false => Some "false"
  | JNumber n => Some (pretty n)
  | JString s => Some (quote s)
  | _ => None
  end.

Definition stringify_flat (v : JsValue) : StringifyOutcome :=
  match v with
  | JUndefined => SUndefined
  | JBigInt _ => SThrows (JError "Do not know how to serialize a BigInt" None)
  | JArray [] => SString "[]"
  | JObject [] => SString "{}"
  | JObject [(k, JString s)] =>
    SString ("{" +:+ String "010"%char "  " +:+ quote k +:+ ": " +:+ quote s +:+
             String "010"%char "}")
  | _ => match scalar_json v with Some s => SString s | None => SString "{}" end
  end.

Definition string_of_value (v : JsValue) : string :=
  match v with
  | JUndefined => "undefined"
  | JNull => "null"
  | JBool true => "true"
  | JBool false => "false"
  | JNumber n | JBigInt n => pretty n
  | JString s => s
  | JError m _ | JObsidianError m _ _ _ => "Error: " +:+ m
  | JArray [] => ""
  | _ => "[object Object]"
  end.

#[export] Instance node_runtime : JsRuntime := {|
  process_env_MAX_TOKENS := None;
  parseInt := parseInt_decimal;
  JSON_stringify2 := stringify_flat;
  String_of := string_of_value;
  Buffer_toString_utf8 := λ bs, String.string_of_list_ascii (ascii_of_byte <$> bs);
  captured_stack := None
|}.


(** A note and an update that tries to change [created]. *)
Definition example_properties : PropertyManager.ObsidianProperties := {|
  PropertyManager.title := Some "Design";
  PropertyManager.created := Some "2025-01-24T10:00:00Z";
  PropertyManager.modified := Some "2025-01-24T10:00:00Z";
  PropertyManager.author := None;
  PropertyManager.type := ["architecture"];
  PropertyManager.tags := ["#a"; "#b"];
  PropertyManager.status := ["draft"];
  PropertyManager.version := None;
  PropertyManager.platform := None;
  PropertyManager.repository := None;
  PropertyManager.dependencies := [];
  PropertyManager.sources := [];
  PropertyManager.urls := [];
  PropertyManager.papers := [];
  PropertyManager.custom := ∅
|}.

Definition example_update : PropertyManager.Partial.t := {|
  PropertyManager.Partial.title := None;
  PropertyManager.Partial.created := Some "2030-06-01T00:00:00Z";
  PropertyManager.Partial.modified := None;
  PropertyManager.Partial.author := Some "Development Team";
  PropertyManager.Partial.type := None;
  PropertyManager.Partial.tags := Some ["#b"; "#c"];
  PropertyManager.Partial.status := None;
  PropertyManager.Partial.version := None;
  PropertyManager.Partial.platform := None;
  PropertyManager.Partial.repository := None;
  PropertyManager.Partial.dependencies := None;
  PropertyManager.Partial.sources := None;
  PropertyManager.Partial.urls := None;
  PropertyManager.Partial.papers := None;
  PropertyManager.Partial.custom := None
|}.

Definition example_note : PropertyManager.FrontmatterDocument := {|
  PropertyManager.body := "# Design notes";
  PropertyManager.frontmatter := PropertyManager.Block example_properties
|}.

Definition example_vault : gmap string PropertyManager.FrontmatterDocument :=
  {[ "docs/design.md" := example_note ]}.

(** An accessor whose writes succeed, and a permissive URI test. *)
Definition write_succeeds
  (vault : gmap string PropertyManager.FrontmatterDocument) (path : string)
  (doc : PropertyManager.FrontmatterDocument)
  : option (gmap string PropertyManager.FrontmatterDocument) := None.

Definition any_uri (s : string) : bool := true.

Definition updated_text (path : string) : string :=
  "Successfully updated properties in " +:+ path.

End Reference.


(** ** [FindInFileToolHandler] (tools.ts) *)
Module FindInFileToolHandler.

(** One result of [client.search]; [runTool] reads its [filename] only. *)
Record SearchResult : Type := {
  filename : string;
  matches : JsValue
}.

(** [[...new Set(xs)]]: the distinct values, in order of first occurrence. *)
Definition Set_add (acc : list string) (x : string) : list string :=
  if decide (x ∈ acc) then acc else acc ++ [x].

Definition Set_values (xs : list string) : list string :=
  foldl Set_add [] xs.

Section tool.
Context {rt : JsRuntime} {tk : Tiktoken}.
(** The order of [sort()] without a comparator: [code_unit_le a b] when [a]
    does not come after [b] in the order of UTF-16 code units. *)
Variable code_unit_le : string → string → bool.

(** [xs.sort()] on an array of strings.  For a total order the sorted
    arrangement of distinct values is unique, whatever the algorithm. *)
Definition Array_sort (xs : list string) : list string :=
  merge_sort (λ a b, code_unit_le a b) xs.

(** [[...new Set(results.map(result => result.filename))].sort()] *)
Definition filenames (results : list SearchResult) : list string :=
  Array_sort (Set_values (filename <$> results)).

(** [runTool(args)], given the outcome of [client.search(...)]. *)
Definition runTool (search : Outcome (list SearchResult))
  : Outcome (list TextContent) :=
  match (results ← search;
         BaseToolHandler.createResponse TOOL_NAMES.FIND_IN_FILE
           (JArray (JString <$> filenames results))) with
  | Returns response => Returns response
  | Throws error => BaseToolHandler.handleError TOOL_NAMES.FIND_IN_FILE error
  end.

End tool.
End FindInFileToolHandler.

(** ** Which listeners a process holds *)
Module Listeners.
Import Lifecycle.

(** No listener is registered twice, and the cleanup closure of an object is
    registered for an event exactly when the object is a tool handler or a
    [TokenCounter] that has not been released. *)
Definition accounted (p : Process) : Prop :=
  NoDup (listeners p) ∧
  ∀ ev i, (ev, i) ∈ listeners p ↔
          ∃ o, heap p !! i = Some o ∧
               (class o = TokenCounterClass → isShuttingDown o = false).

End Listeners.

(** ** Further concrete instances *)
Module Examples.

(** A runtime started with [MAX_TOKENS=unlimited] in its environment. *)
Definition unparsable_budget_runtime : JsRuntime := {|
  process_env_MAX_TOKENS := Some "unlimited";
  parseInt := Reference.parseInt_decimal;
  JSON_stringify2 := Reference.stringify_flat;
  String_of := Reference.string_of_value;
  Buffer_toString_utf8 := λ bs, String.string_of_list_ascii (ascii_of_byte <$> bs);
  captured_stack := None
|}.

(** Strings compared character by character; on ASCII text this is the
    order of UTF-16 code units. *)
Definition ascii_le (a b : string) : bool := String.leb a b.

(** A runtime started with [MAX_TOKENS=11] in its environment. *)
Definition budget_11_runtime : JsRuntime := {|
  process_env_MAX_TOKENS := Some "11";
  parseInt := Reference.parseInt_decimal;
  JSON_stringify2 := Reference.stringify_flat;
  String_of := Reference.string_of_value;
  Buffer_toString_utf8 := λ bs, String.string_of_list_ascii (ascii_of_byte <$> bs);
  captured_stack := None
|}.

(** A binding that cuts a text into pieces the way the [gpt-4] encoding cuts
    plain English text and decimal numbers: a word with the space in front
    of it, up to three digits, a run of newlines, or one other character.
    On the texts of the examples below it yields the token counts of the
    library's encoding (13, 8 and 31).  A token is the number
    whose base-256 digits, after a leading 1, are the bytes of its piece. *)
Inductive PieceMode : Type :=
| MNone
| MWord
| MSpace
| MDigits (n : nat)
| MNewlines.

Definition is_letter (c : ascii) : bool :=
  let n := nat_of_ascii c in
  bool_decide (65 ≤ n ≤ 90) || bool_decide (97 ≤ n ≤ 122).

Definition is_digit (c : ascii) : bool :=
  let n := nat_of_ascii c in bool_decide (48 ≤ n ≤ 57).

Definition flush (cur : list ascii) : list (list ascii) :=
  match cur with
  | [] => []
  | _ => [cur]
  end.

Fixpoint pieces (mode : PieceMode) (cur rest : list ascii) : list (list ascii) :=
  match rest with
  | [] => flush cur
  | c :: rest' =>
    if is_letter c then
      match mode with
      | MWord | MSpace => pieces MWord (cur ++ [c]) rest'
      | _ => flush cur ++ pieces MWord [c] rest'
      end
    else if is_digit c then
      match mode with
      | MDigits n =>
        if bool_decide (n < 3) then pieces (MDigits (S n)) (cur ++ [c]) rest'
        else flush cur ++ pieces (MDigits 1) [c] rest'
      | _ => flush cur ++ pieces (MDigits 1) [c] rest'
      end
    else if bool_decide (c = "010"%char) then
      match mode with
      | MNewlines => pieces MNewlines (cur ++ [c]) rest'
      | _ => flush cur ++ pieces MNewlines [c] rest'
      end
    else if bool_decide (c = " "%char) then
      flush cur ++ pieces MSpace [c] rest'
    else
      flush cur ++ [[c]] ++ pieces MNone [] rest'
  end.

Definition piece_id (piece : list ascii) : N :=
  foldl (λ acc c, acc * 256 + N_of_ascii c)%N 1%N piece.

Fixpoint id_bytes (fuel : nat) (id : N) (acc : list N) : list N :=
  match fuel with
  | O => acc
  | S fuel' =>
    if (id <=? 1)%N then acc
    else id_bytes fuel' (id / 256)%N ((id mod 256)%N :: acc)
  end.

Fixpoint contains (pattern s : string) : bool :=
  String.prefix pattern s ||
  match s with
  | EmptyString => false
  | String _ s' => contains pattern s'
  end.

Definition piece_binding : TiktokenBinding := {|
  wasm_encode := λ s,
    if contains "<|endoftext|>" s
    then Throws (JError "The text contains a special token that is not allowed" None)
    else Returns (piece_id <$> pieces MNone [] (String.list_ascii_of_string s));
  wasm_decode := λ ts, mjoin ((λ t, id_bytes (N.size_nat t) t []) <$> ts);
  wasm_encode_undefined := Throws (JError "text is not a string" None);
  wasm_encode_after_free := λ _, Throws (JError "null pointer passed to rust" None)
|}.

End Examples.

(** * Properties *)

(** ** Arrays and strings *)

Lemma slice0_nonneg {A : Type} (xs : list A) (z : Z) :
  (0 ≤ z)%Z → slice0 xs (Num z) = take (Z.to_nat z) xs.
Proof.
  intros Hz. unfold slice0.
  destruct (Z.ltb_spec z 0) as [Hneg|_]; [lia|].
  destruct (Z.le_ge_cases z (Z.of_nat (length xs))) as [Hle|Hge].
  - by rewrite Z.min_l.
  - rewrite Z.min_r, Nat2Z.id by lia.
    rewrite !take_ge; [done | lia | lia].
Qed.

Lemma slice0_length_nonneg {A : Type} (xs : list A) (z : Z) :
  (0 ≤ z)%Z → (Z.of_nat (length (slice0 xs (Num z))) ≤ z)%Z.
Proof.
  intros Hz. rewrite slice0_nonneg, length_take by done. lia.
Qed.

(** ** The tokenizer lifecycle *)
Module LifecycleFacts.
Import Lifecycle.

Lemma Inv_boot : Inv boot.
Proof. intros i o H. simpl in H. by rewrite lookup_nil in H. Qed.

Lemma Inv_construct c p : Inv p → Inv (construct c p).
Proof.
  intros HI i o. unfold construct; simpl.
  rewrite lookup_app_Some. intros [H|[_ H]]; [by eapply HI|].
  apply list_lookup_singleton_Some in H as [_ <-]. reflexivity.
Qed.

Lemma Inv_store i o p : Inv p → consistent o → Inv (store i o p).
Proof.
  intros HI Ho j o'. unfold store; simpl. intros H.
  destruct (decide (i = j)) as [->|Hne].
  - destruct (decide (j < length (heap p))) as [Hlt|Hge].
    + rewrite list_lookup_insert_eq in H by done. by inversion H; subst.
    + rewrite list_insert_ge in H by lia. by eapply HI.
  - rewrite list_lookup_insert_ne in H by done. by eapply HI.
Qed.

Lemma Inv_removeListeners i p : Inv p → Inv (removeListeners i p).
Proof. intros HI j o H. by eapply HI. Qed.

Lemma consistent_freed o :
  consistent o → isShuttingDown o = false →
  consistent {| class := class o; tokenizer := free (tokenizer o);
                isShuttingDown := true |}.
Proof. unfold consistent. intros H Hs. rewrite Hs in H. simpl. by rewrite H. Qed.

Lemma Inv_TokenCounter_cleanupListener i p :
  Inv p → Inv (TokenCounter_cleanupListener i p).
Proof.
  intros HI. unfold TokenCounter_cleanupListener.
  destruct (heap p !! i) as [o|] eqn:Ho; [|done].
  destruct (isShuttingDown o) eqn:Hs; [done|].
  apply Inv_removeListeners, Inv_store; [done|].
  apply consistent_freed; [by eapply HI | done].
Qed.

Lemma Inv_BaseToolHandler_cleanup i p :
  Inv p → Inv (BaseToolHandler_cleanup i p).
Proof.
  intros HI. unfold BaseToolHandler_cleanup.
  destruct (heap p !! i) as [o|] eqn:Ho; [|done].
  destruct (isShuttingDown o) eqn:Hs; [done|].
  apply Inv_store; [done|].
  apply consistent_freed; [by eapply HI | done].
Qed.

Lemma Inv_call_listener p i : Inv p → Inv (call_listener p i).
Proof.
  intros HI. unfold call_listener.
  destruct (heap p !! i) as [o|]; [|done].
  destruct (class o);
    auto using Inv_TokenCounter_cleanupListener, Inv_BaseToolHandler_cleanup.
Qed.

Lemma Inv_foldl_call_listener js p : Inv p → Inv (foldl call_listener p js).
Proof.
  revert p. induction js as [|j js IH]; intros p HI; simpl; [done|].
  apply IH, Inv_call_listener, HI.
Qed.

Lemma Inv_step p op : Inv p → Inv (step p op).
Proof.
  intros HI. destruct op; simpl; try done.
  - by apply Inv_construct.
  - by apply Inv_construct.
  - unfold cleanup. destruct (heap p !! i) as [o|]; [|done].
    destruct (class o); [by apply Inv_TokenCounter_cleanupListener | done].
  - by apply Inv_foldl_call_listener.
Qed.

Lemma Inv_foldl_step ops p : Inv p → Inv (foldl step p ops).
Proof.
  revert p. induction ops as [|op ops IH]; intros p HI; simpl; [done|].
  apply IH, Inv_step, HI.
Qed.

Lemma Inv_run ops : Inv (run ops).
Proof. apply Inv_foldl_step, Inv_boot. Qed.

Lemma settled_store i o j o' p :
  settled i o p → i ≠ j → settled i o (store j o' p).
Proof.
  intros [H Hs] Hne. split; [|done].
  unfold store; simpl. by rewrite list_lookup_insert_ne.
Qed.

Lemma settled_TokenCounter_cleanupListener i o j p :
  settled i o p → settled i o (TokenCounter_cleanupListener j p).
Proof.
  intros Hset. unfold TokenCounter_cleanupListener.
  destruct (heap p !! j) as [o'|] eqn:Ho; [|done].
  destruct (isShuttingDown o') eqn:Hs; [done|].
  assert (i ≠ j) as Hne.
  { intros ->. destruct Hset as [H1 H2]. congruence. }
  destruct (settled_store i o j
    {| class := class o'; tokenizer := free (tokenizer o');
       isShuttingDown := true |} p Hset Hne) as [H1 H2].
  split; done.
Qed.

Lemma settled_BaseToolHandler_cleanup i o j p :
  settled i o p → settled i o (BaseToolHandler_cleanup j p).
Proof.
  intros Hset. unfold BaseToolHandler_cleanup.
  destruct (heap p !! j) as [o'|] eqn:Ho; [|done].
  destruct (isShuttingDown o') eqn:Hs; [done|].
  apply settled_store; [done|].
  intros ->. destruct Hset as [H1 H2]. congruence.
Qed.

Lemma settled_call_listener i o p j :
  settled i o p → settled i o (call_listener p j).
Proof.
  intros Hset. unfold call_listener.
  destruct (heap p !! j) as [o'|]; [|done].
  destruct (class o');
    auto using settled_TokenCounter_cleanupListener,
               settled_BaseToolHandler_cleanup.
Qed.

Lemma settled_foldl_call_listener i o js p :
  settled i o p → settled i o (foldl call_listener p js).
Proof.
  revert p. induction js as [|j js IH]; intros p H; simpl; [done|].
  apply IH, settled_call_listener, H.
Qed.

Lemma settled_construct i o c p : settled i o p → settled i o (construct c p).
Proof.
  intros [H Hs]. split; [|done]. unfold construct; simpl.
  apply lookup_app_l_Some, H.
Qed.

Lemma settled_step i o p op : settled i o p → settled i o (step p op).
Proof.
  intros Hset. destruct op; simpl; try done.
  - by apply settled_construct.
  - by apply settled_construct.
  - unfold cleanup. destruct (heap p !! i0) as [o'|]; [|done].
    destruct (class o'); [by apply settled_TokenCounter_cleanupListener | done].
  - by apply settled_foldl_call_listener.
Qed.

Lemma settled_foldl_step i o ops p :
  settled i o p → settled i o (foldl step p ops).
Proof.
  revert p. induction ops as [|op ops IH]; intros p H; simpl; [done|].
  apply IH, settled_step, H.
Qed.

(** Only construction calls [encoding_for_model], and it appends one
    object. *)
Lemma acquired_foldl_call_listener js p :
  acquired (foldl call_listener p js) = acquired p ∧
  length (heap (foldl call_listener p js)) = length (heap p).
Proof.
  revert p. induction js as [|j js IH]; intros p; simpl; [done|].
  destruct (IH (call_listener p j)) as [-> ->].
  unfold call_listener, TokenCounter_cleanupListener, BaseToolHandler_cleanup.
  destruct (heap p !! j) as [o|]; [|done].
  destruct (class o), (isShuttingDown o); simpl;
    by rewrite ?length_insert.
Qed.

Lemma acquired_step p op :
  acquired (step p op) =
    if is_construction op then S (acquired p) else acquired p.
Proof.
  destruct op; simpl; try done.
  - unfold cleanup, TokenCounter_cleanupListener.
    destruct (heap p !! i) as [o|]; [|done].
    by destruct (class o), (isShuttingDown o).
  - apply acquired_foldl_call_listener.
Qed.

Lemma length_heap_step p op :
  length (heap (step p op)) =
    if is_construction op then S (length (heap p)) else length (heap p).
Proof.
  destruct op; simpl; try done.
  - rewrite length_app; simpl; lia.
  - rewrite length_app; simpl; lia.
  - unfold cleanup, TokenCounter_cleanupListener.
    destruct (heap p !! i) as [o|]; [|done].
    destruct (class o), (isShuttingDown o); simpl; by rewrite ?length_insert.
  - apply acquired_foldl_call_listener.
Qed.

Lemma acquired_foldl_step ops p :
  acquired (foldl step p ops) =
    acquired p + length (filter (λ op, is_construction op = true) ops) ∧
  length (heap (foldl step p ops)) =
    length (heap p) + length (filter (λ op, is_construction op = true) ops).
Proof.
  revert p. induction ops as [|op ops IH]; intros p; simpl; [lia|].
  destruct (IH (step p op)) as [-> ->].
  rewrite acquired_step, length_heap_step.
  destruct (is_construction op) eqn:Hc.
  - rewrite filter_cons_True by done. simpl. lia.
  - rewrite filter_cons_False by (rewrite Hc; done). lia.
Qed.

(** *** The first termination signal releases every tokenizer *)

Lemma elem_of_remove_first x y ls :
  x ∈ ls → x ≠ y → x ∈ remove_first y ls.
Proof.
  induction ls as [|z ls IH]; simpl; [done|].
  intros Hin Hne. destruct (decide (y = z)) as [->|Hyz].
  - apply elem_of_cons in Hin as [->|Hin]; done.
  - apply elem_of_cons in Hin as [->|Hin]; [left | right; auto].
Qed.

Lemma elem_of_process_off x ev j ls :
  x ∈ ls → x ≠ (ev, j) → x ∈ process_off ev j ls.
Proof.
  intros Hin Hne. unfold process_off.
  apply elem_of_reverse, elem_of_remove_first; [|done].
  by apply elem_of_reverse.
Qed.

Lemma listening_boot : listening boot.
Proof. intros i o ev H. simpl in H. by rewrite lookup_nil in H. Qed.

Lemma listening_construct c p : listening p → listening (construct c p).
Proof.
  intros HL i o ev. unfold construct, attach; simpl.
  rewrite lookup_app_Some. intros [H|[Hge H]] Hs.
  - apply elem_of_app. left. by eapply HL.
  - apply list_lookup_singleton_Some in H as [Hi _].
    assert (i = length (heap p)) as -> by lia.
    apply elem_of_app. right. destruct ev; set_solver.
Qed.

Lemma listening_store i o p :
  listening p → isShuttingDown o = true → listening (store i o p).
Proof.
  intros HL Ho j o' ev. unfold store; simpl. intros H Hs.
  destruct (decide (i = j)) as [->|Hne].
  - destruct (decide (j < length (heap p))) as [Hlt|Hge].
    + rewrite list_lookup_insert_eq in H by done.
      inversion H; subst. congruence.
    + rewrite list_insert_ge in H by lia. by eapply HL.
  - rewrite list_lookup_insert_ne in H by done. by eapply HL.
Qed.

Lemma listening_TokenCounter_cleanupListener i p :
  listening p → listening (TokenCounter_cleanupListener i p).
Proof.
  intros HL. unfold TokenCounter_cleanupListener.
  destruct (heap p !! i) as [o|] eqn:Ho; [|done].
  destruct (isShuttingDown o) eqn:Hs; [done|].
  intros j o' ev Hj Hs'. simpl in Hj.
  assert (j ≠ i) as Hne.
  { intros ->. destruct (decide (i < length (heap p))) as [Hlt|Hge].
    - rewrite list_lookup_insert_eq in Hj by done.
      inversion Hj; subst. done.
    - apply lookup_lt_Some in Ho. lia. }
  rewrite list_lookup_insert_ne in Hj by done.
  pose proof (HL j o' ev Hj Hs') as Hin. simpl.
  repeat (apply elem_of_process_off; [|congruence]). exact Hin.
Qed.

Lemma listening_BaseToolHandler_cleanup i p :
  listening p → listening (BaseToolHandler_cleanup i p).
Proof.
  intros HL. unfold BaseToolHandler_cleanup.
  destruct (heap p !! i) as [o|] eqn:Ho; [|done].
  destruct (isShuttingDown o) eqn:Hs; [done|].
  by apply listening_store.
Qed.

Lemma listening_call_listener p i : listening p → listening (call_listener p i).
Proof.
  intros HL. unfold call_listener.
  destruct (heap p !! i) as [o|]; [|done].
  destruct (class o);
    auto using listening_TokenCounter_cleanupListener,
               listening_BaseToolHandler_cleanup.
Qed.

Lemma listening_foldl_call_listener js p :
  listening p → listening (foldl call_listener p js).
Proof.
  revert p. induction js as [|j js IH]; intros p HL; simpl; [done|].
  apply IH, listening_call_listener, HL.
Qed.

Lemma listening_step p op : listening p → listening (step p op).
Proof.
  intros HL. destruct op; simpl; try done.
  - by apply listening_construct.
  - by apply listening_construct.
  - unfold cleanup. destruct (heap p !! i) as [o|]; [|done].
    destruct (class o); [by apply listening_TokenCounter_cleanupListener | done].
  - by apply listening_foldl_call_listener.
Qed.

Lemma listening_run ops : listening (run ops).
Proof.
  unfold run. generalize listening_boot. generalize boot.
  induction ops as [|op ops IH]; intros p HL; simpl; [done|].
  apply IH, listening_step, HL.
Qed.

(** Calling the listener of an object sets its flag. *)
Lemma call_listener_sets_flag p i o :
  heap p !! i = Some o →
  ∃ o', settled i o' (call_listener p i).
Proof.
  intros Ho. unfold call_listener. rewrite Ho.
  pose proof (lookup_lt_Some _ _ _ Ho) as Hlt.
  unfold TokenCounter_cleanupListener, BaseToolHandler_cleanup. rewrite Ho.
  destruct (class o), (isShuttingDown o) eqn:Hs;
    try (by exists o);
    eexists; (split; [simpl; by apply list_lookup_insert_eq | done]).
Qed.

Lemma lookup_call_listener_is_Some p i j :
  is_Some (heap p !! i) → is_Some (heap (call_listener p j) !! i).
Proof.
  intros Hi. apply lookup_lt_is_Some. apply lookup_lt_is_Some in Hi.
  destruct (acquired_foldl_call_listener [j] p) as [_ Hlen].
  simpl in Hlen. by rewrite Hlen.
Qed.

Lemma foldl_call_listener_sets_flag js p i :
  i ∈ js → is_Some (heap p !! i) →
  ∃ o', settled i o' (foldl call_listener p js).
Proof.
  revert p. induction js as [|j js IH]; intros p Hin Hi; [by inversion Hin|].
  simpl. destruct (decide (i = j)) as [->|Hne].
  - destruct Hi as [o Ho].
    destruct (call_listener_sets_flag p j o Ho) as [o' Hset].
    exists o'. by apply settled_foldl_call_listener.
  - apply elem_of_cons in Hin as [->|Hin]; [done|].
    apply IH; [done|]. by apply lookup_call_listener_is_Some.
Qed.

(** After any of the four events, every tokenizer constructed so far has
    been freed exactly once. *)
Lemma emit_releases_every_tokenizer ops ev i o :
  heap (run (ops ++ [Emit ev])) !! i = Some o →
  isShuttingDown o = true ∧ frees (tokenizer o) = 1.
Proof.
  intros Ho.
  assert (isShuttingDown o = true) as Hs.
  { revert Ho. unfold run. rewrite foldl_app. simpl. fold (run ops).
    unfold emit. intros Ho.
    assert (is_Some (heap (run ops) !! i)) as Hi.
    { apply lookup_lt_is_Some. apply lookup_lt_Some in Ho.
      by destruct (acquired_foldl_call_listener
        ((filter (λ l, l.1 = ev) (listeners (run ops))).*2) (run ops)) as [_ <-]. }
    destruct Hi as [o0 Ho0].
    destruct (isShuttingDown o0) eqn:Hs0.
    - destruct (settled_foldl_call_listener i o0
        ((filter (λ l, l.1 = ev) (listeners (run ops))).*2) (run ops))
        as [Ho' _]; [done|]. congruence.
    - pose proof (listening_run ops i o0 ev Ho0 Hs0) as Hin.
      destruct (foldl_call_listener_sets_flag
        ((filter (λ l, l.1 = ev) (listeners (run ops))).*2) (run ops) i)
        as [o' [Ho' Hs']]; [|by eexists|congruence].
      apply list_elem_of_fmap. exists (ev, i). split; [done|].
      by apply list_elem_of_filter. }
  split; [done|].
  pose proof (Inv_run _ i o Ho) as Hc. unfold consistent in Hc.
  by rewrite Hs in Hc.
Qed.

Section use_after_release.
Context {b : TiktokenBinding}.

(** On a tokenizer that has not been freed the methods are the calls on the
    live tokenizer, with the same outcome, returned or thrown. *)
Lemma countTokens_live o text :
  frees (tokenizer o) = 0 →
  countTokens o text = Binding.countTokens text.
Proof. unfold countTokens, handle_encode. by intros ->. Qed.

Lemma truncateToTokenLimit_live o text limit :
  frees (tokenizer o) = 0 →
  truncateToTokenLimit o text limit = Binding.truncateToTokenLimit text limit.
Proof.
  unfold truncateToTokenLimit, handle_encode, Binding.truncateToTokenLimit.
  by intros ->.
Qed.

(** After release neither method tests [isShuttingDown]: each starts by
    calling [encode] on the freed tokenizer, and the outcome of that call is
    the library's. *)
Lemma countTokens_after_release o text :
  frees (tokenizer o) ≠ 0 →
  countTokens o text =
    (tokens ← wasm_encode_after_free text; mret (length tokens)).
Proof.
  unfold countTokens, handle_encode. by destruct (frees (tokenizer o)).
Qed.

Lemma use_after_release_throws_if_library_throws o text limit e :
  frees (tokenizer o) ≠ 0 →
  wasm_encode_after_free text = Throws e →
  countTokens o text = Throws e ∧ truncateToTokenLimit o text limit = Throws e.
Proof.
  unfold countTokens, truncateToTokenLimit, handle_encode.
  destruct (frees (tokenizer o)); [done|]. by intros _ ->.
Qed.

End use_after_release.

End LifecycleFacts.

(** [C5] Release is idempotent.  In every process reached by any sequence of
    constructions, method calls, explicit [cleanup()] calls and emitted
    [exit], [SIGINT], [SIGTERM] and [uncaughtException] events, the tokenizer
    of every object has received [free()] at most once; and once an object's
    guard flag is set, no later operation of any kind changes the object, so
    every later release is a no-op on its tokenizer. *)
Theorem release_frees_tokenizer_at_most_once
  (ops : list Lifecycle.Op) (i : nat) (o : Lifecycle.Obj) :
  Lifecycle.heap (Lifecycle.run ops) !! i = Some o →
  Lifecycle.frees (Lifecycle.tokenizer o) ≤ 1 ∧
  (Lifecycle.isShuttingDown o = true →
   ∀ more, Lifecycle.heap (Lifecycle.run (ops ++ more)) !! i = Some o).
Proof.
  intros Ho. split.
  - pose proof (LifecycleFacts.Inv_run ops i o Ho) as Hc.
    unfold Lifecycle.consistent in Hc.
    destruct (Lifecycle.isShuttingDown o); lia.
  - intros Hs more. unfold Lifecycle.run. rewrite foldl_app.
    by apply (LifecycleFacts.settled_foldl_step i o more).
Qed.

Lemma release_frees_tokenizer_at_most_once_witness :
  let ops := [Lifecycle.NewTokenCounter;
              Lifecycle.NewBaseToolHandler TOOL_NAMES.GET_FILE_CONTENTS;
              Lifecycle.CallCleanup 0;
              Lifecycle.Emit Lifecycle.EvSIGINT;
              Lifecycle.Emit Lifecycle.EvExit;
              Lifecycle.CallCleanup 0] in
  let o := {| Lifecycle.class := Lifecycle.TokenCounterClass;
              Lifecycle.tokenizer := {| Lifecycle.frees := 1 |};
              Lifecycle.isShuttingDown := true |} in
  Lifecycle.heap (Lifecycle.run ops) !! 0 = Some o ∧
  Lifecycle.frees (Lifecycle.tokenizer o) ≤ 1 ∧
  (Lifecycle.isShuttingDown o = true →
   ∀ more, Lifecycle.heap (Lifecycle.run (ops ++ more)) !! 0 = Some o).
Proof.
  intros ops o. split; [reflexivity|].
  apply (release_frees_tokenizer_at_most_once ops 0 o). reflexivity.
Defined.

(** [C6], as the claim states it, fails: loading the two modules constructs
    the singleton [TokenCounter] and the handlers, and every constructor
    acquires a tokenizer of its own, before any call of [countTokens] or
    [truncateToTokenLimit]. *)
Lemma tokenizer_acquired_once_counterexample :
  let ops := [Lifecycle.NewTokenCounter;
              Lifecycle.NewBaseToolHandler TOOL_NAMES.LIST_FILES_IN_VAULT;
              Lifecycle.NewBaseToolHandler TOOL_NAMES.GET_FILE_CONTENTS] in
  forallb (λ op, negb (Lifecycle.is_use op)) ops = true ∧
  Lifecycle.acquired (Lifecycle.run ops) = 3 ∧
  ¬ Lifecycle.acquired (Lifecycle.run ops) ≤ 1.
Proof.
  intros ops. split; [reflexivity|]. split; [reflexivity|].
  vm_compute. lia.
Qed.

(** [C6], amended.  Every constructed object ([TokenCounter] or tool handler)
    acquires exactly one tokenizer, eagerly, when it is constructed: after
    any sequence of operations the number of tokenizers acquired is the
    number of constructions performed and the number of objects, and no other
    operation (counting, truncating, cleanup, process events) acquires
    one. *)
Theorem tokenizer_acquired_once_per_object (ops : list Lifecycle.Op) :
  Lifecycle.acquired (Lifecycle.run ops) =
    length (filter (λ op, Lifecycle.is_construction op = true) ops) ∧
  Lifecycle.acquired (Lifecycle.run ops) =
    length (Lifecycle.heap (Lifecycle.run ops)) ∧
  ∀ op, Lifecycle.acquired (Lifecycle.step (Lifecycle.run ops) op) =
        if Lifecycle.is_construction op
        then S (Lifecycle.acquired (Lifecycle.run ops))
        else Lifecycle.acquired (Lifecycle.run ops).
Proof.
  destruct (LifecycleFacts.acquired_foldl_step ops Lifecycle.boot) as [Ha Hh].
  unfold Lifecycle.run. rewrite Ha, Hh. simpl.
  split; [done|]. split; [done|].
  intros op. rewrite LifecycleFacts.acquired_step. by rewrite Ha.
Qed.

(** ** Truncation to the token budget *)
Section truncation.
Context {tk : Tiktoken}.

Lemma js_le_gt_false (n : nat) (L : JsNum) :
  js_gt n L = true → js_le n L = false.
Proof.
  destruct L as [z|]; simpl; [|done].
  intros H. apply Z.ltb_lt in H. apply Z.leb_gt. lia.
Qed.

(** Over budget, the result is the decoded slice followed by the marker. *)
Lemma truncate_over_budget_unfold (T : string) (L : JsNum) :
  js_gt (TokenCounter.countTokens T) L = true →
  TokenCounter.truncateToTokenLimit T L =
    decode (slice0 (encode T)
              (js_sub L (TokenCounter.countTokens TokenCounter.TRUNCATION_MESSAGE)))
    +:+ TokenCounter.TRUNCATION_MESSAGE.
Proof.
  intros H. unfold TokenCounter.truncateToTokenLimit.
  fold (TokenCounter.countTokens T).
  by rewrite (js_le_gt_false _ _ H).
Qed.

End truncation.

(** Within budget the handler's inline copy returns the text too. *)
Section handler_truncation.
Context {rt : JsRuntime} {tk : Tiktoken}.

Lemma BaseToolHandler_truncate_within_budget (T : string) :
  js_le (BaseToolHandler.countTokens T) BaseToolHandler.MAX_TOKENS = true →
  BaseToolHandler.truncateToTokenLimit T = T.
Proof.
  intros H. unfold BaseToolHandler.truncateToTokenLimit.
  fold (BaseToolHandler.countTokens T). by rewrite H.
Qed.

End handler_truncation.

(** With no [MAX_TOKENS] in the environment the budget is 20000. *)
Example MAX_TOKENS_default :
  @TokenCounter.MAX_TOKENS Reference.node_runtime = Num 20000.
Proof. reflexivity. Qed.

(** A budget of 30 is below the 36 tokens of the marker under the character
    tokenizer: [slice(0, -6)] drops the last six tokens only. *)
Example truncate_negative_available :
  @TokenCounter.truncateToTokenLimit Reference.char_tokenizer
    "hello world, this is a long text that must be cut somewhere" (Num 30) =
  "hello world, this is a long text that must be cut som"
    +:+ TokenCounter.TRUNCATION_MESSAGE.
Proof. reflexivity. Qed.

(** A [NaN] budget truncates every text to the marker alone. *)
Example truncate_NaN :
  @TokenCounter.truncateToTokenLimit Reference.char_tokenizer "hello" NaN =
  TokenCounter.TRUNCATION_MESSAGE.
Proof. reflexivity. Qed.

(** [C2] Within budget, truncation is the identity: when the token count of
    [T] is at most the limit [L], [truncateToTokenLimit(T, L)] returns [T]
    itself, with no marker appended. *)
Theorem truncate_within_budget_is_identity
  (tk : Tiktoken) (T : string) (L : JsNum) :
  js_le (TokenCounter.countTokens T) L = true →
  TokenCounter.truncateToTokenLimit T L = T.
Proof.
  intros H. unfold TokenCounter.truncateToTokenLimit.
  fold (TokenCounter.countTokens T). by rewrite H.
Qed.

Lemma truncate_within_budget_is_identity_witness :
  js_le (@TokenCounter.countTokens Reference.char_tokenizer "hello world")
        (Num 11) = true ∧
  @TokenCounter.truncateToTokenLimit Reference.char_tokenizer "hello world"
        (Num 11) = "hello world".
Proof.
  split; [reflexivity|].
  apply (truncate_within_budget_is_identity Reference.char_tokenizer).
  reflexivity.
Defined.

(** [C9] The utility's truncation at the configured budget and the inline
    truncation of the base tool handler are the same function of the text,
    as are the two [countTokens]; this also holds for the utility called
    without a limit, which takes [MAX_TOKENS] by default. *)
Theorem truncation_logic_is_duplicated (rt : JsRuntime) (tk : Tiktoken) (T : string) :
  TokenCounter.truncateToTokenLimit T TokenCounter.MAX_TOKENS =
    BaseToolHandler.truncateToTokenLimit T ∧
  TokenCounter.truncateToTokenLimit_default T =
    BaseToolHandler.truncateToTokenLimit T ∧
  TokenCounter.countTokens T = BaseToolHandler.countTokens T.
Proof.
  unfold TokenCounter.truncateToTokenLimit_default,
    TokenCounter.truncateToTokenLimit, BaseToolHandler.truncateToTokenLimit,
    TokenCounter.countTokens, BaseToolHandler.countTokens,
    TokenCounter.MAX_TOKENS, BaseToolHandler.MAX_TOKENS,
    TokenCounter.TRUNCATION_MESSAGE, BaseToolHandler.TRUNCATION_MESSAGE.
  repeat split.
Qed.

(** ** The response builder *)
Section response.
Context {rt : JsRuntime} {tk : Tiktoken}.

Lemma forallb_typeof_string_fmap (ss : list string) :
  forallb typeof_string (JString <$> ss) = true.
Proof. induction ss as [|s ss IH]; simpl; [done | exact IH]. Qed.

Lemma string_value_fmap (ss : list string) :
  string_value <$> (JString <$> ss) = ss.
Proof. induction ss as [|s ss IH]; [done | by rewrite !fmap_cons, IH]. Qed.

Lemma createResponse_logged_text (name : string) (content : JsValue) (s : string) :
  BaseToolHandler.createResponse_text content = Some s →
  ∃ log,
    BaseToolHandler.createResponse_logged name content =
      Returns ([ {| type := "text";
                    text := Some (BaseToolHandler.truncateToTokenLimit s) |} ], log).
Proof.
  intros Ht. unfold BaseToolHandler.createResponse_logged. rewrite Ht.
  simpl. eexists. reflexivity.
Qed.

End response.

(** [C4] The response builder's normalization, by precedence: a string is
    taken as it is; a Buffer is decoded as UTF-8; an array whose items are
    all strings is joined with newlines; an [Error] (an [ObsidianError]
    included) becomes ["Error: " + message + "\n" + stack], with the empty
    string for a missing stack; for any other value the text is what
    [JSON.stringify(content, null, 2)] returns, and [String(content)] when it
    throws. *)
Theorem createResponse_normalization (rt : JsRuntime) :
  (∀ s, BaseToolHandler.createResponse_text (JString s) = Some s) ∧
  (∀ bytes, BaseToolHandler.createResponse_text (JBuffer bytes) =
            Some (Buffer_toString_utf8 bytes)) ∧
  (∀ ss : list string,
     BaseToolHandler.createResponse_text (JArray (JString <$> ss)) =
     Some (String.concat (String "010"%char "") ss)) ∧
  (∀ m st,
     BaseToolHandler.createResponse_text (JError m st) =
     Some ("Error: " +:+ m +:+ String "010"%char "" +:+ default "" st)) ∧
  (∀ m c d st,
     BaseToolHandler.createResponse_text (JObsidianError m c d st) =
     Some ("Error: " +:+ m +:+ String "010"%char "" +:+ default "" st)) ∧
  (∀ v,
     typeof_string v = false →
     instanceof_Buffer v = false →
     Array_isArray v && forallb typeof_string (array_items v) = false →
     instanceof_Error v = false →
     (∀ s, JSON_stringify2 v = SString s →
           BaseToolHandler.createResponse_text v = Some s) ∧
     (∀ e, JSON_stringify2 v = SThrows e →
           BaseToolHandler.createResponse_text v = Some (String_of v))).
Proof.
  split; [done|]. split; [done|]. split; [|split; [|split]].
  - intros ss. unfold BaseToolHandler.createResponse_text.
    cbn [typeof_string instanceof_Buffer Array_isArray array_items andb].
    rewrite forallb_typeof_string_fmap.
    unfold BaseToolHandler.Array_join_strings. by rewrite string_value_fmap.
  - intros m st. by destruct st.
  - intros m c d st. by destruct st.
  - intros v Hstr Hbuf Harr Herr.
    unfold BaseToolHandler.createResponse_text.
    rewrite Hstr, Hbuf, Harr, Herr.
    split; [intros s Hs | intros e He]; by rewrite ?Hs, ?He.
Qed.

Lemma createResponse_normalization_witness :
  let rt := Reference.node_runtime in
  BaseToolHandler.createResponse_text (JArray [JString "a.md"; JString "b.md"]) =
    Some ("a.md" +:+ String "010"%char "" +:+ "b.md") ∧
  BaseToolHandler.createResponse_text (JObject [("message", JString "done")]) =
    Some ("{" +:+ String "010"%char "  " +:+ Reference.quote "message" +:+ ": " +:+
          Reference.quote "done" +:+ String "010"%char "}") ∧
  BaseToolHandler.createResponse_text (JBigInt 7) = Some "7".
Proof.
  intros rt.
  destruct (createResponse_normalization rt) as (_ & _ & Harr & _ & _ & Hother).
  split; [exact (Harr ["a.md"; "b.md"])|].
  split.
  - apply (Hother (JObject [("message", JString "done")]));
      reflexivity.
  - apply (Hother (JBigInt 7) eq_refl eq_refl eq_refl eq_refl)
      with (e := JError "Do not know how to serialize a BigInt" None).
    reflexivity.
Defined.

(** ** Error propagation *)




(** ** The write-once [created] field *)

(** The array union of the merge: existing tags [#a, #b] updated with
    [#b, #c] give [#a, #b, #c]. *)
Example merge_tags_example :
  PropertyManager.merge_array ["#a"; "#b"] (Some ["#b"; "#c"]) = ["#a"; "#b"; "#c"].
Proof. vm_compute. reflexivity. Qed.

Section created.
Import PropertyManager.
Variable is_uri : string → bool.
Variable writeNote_fails :
  gmap string FrontmatterDocument → string → FrontmatterDocument →
  option (gmap string FrontmatterDocument).
Variable confirmation_text : string → string.

(** A successful update stores the merged properties in front of the
    untouched body. *)
Lemma updateProperties_success now path incoming vault doc existing conf :
  vault !! path = Some doc →
  frontmatter doc = Block existing →
  (updateProperties is_uri writeNote_fails confirmation_text
     now path incoming vault).2 = Ok conf →
  (updateProperties is_uri writeNote_fails confirmation_text
     now path incoming vault).1 !! path =
    Some {| body := body doc;
            frontmatter := Block (mergeProperties now existing incoming) |}.
Proof.
  intros Hdoc Hfm. unfold updateProperties. rewrite Hdoc, Hfm.
  destruct (validate is_uri (mergeProperties now existing incoming)); [|done].
  destruct (writeNote_fails _ _ _); [done|].
  intros _. simpl. apply lookup_insert_eq.
Qed.

End created.

(** [C3] [created] is write-once.  When a note's existing properties have a
    [created] value, a successful [updateProperties] stores properties whose
    [created] is that same value, whatever the update supplies (a different
    [created] included); the update's [created] is adopted exactly when the
    existing one is absent.  The body is stored unchanged. *)
Theorem created_is_write_once
  (is_uri : string → bool)
  (writeNote_fails :
     gmap string PropertyManager.FrontmatterDocument → string →
     PropertyManager.FrontmatterDocument →
     option (gmap string PropertyManager.FrontmatterDocument))
  (confirmation_text : string → string)
  (now path : string) (incoming : PropertyManager.Partial.t)
  (vault : gmap string PropertyManager.FrontmatterDocument)
  (doc : PropertyManager.FrontmatterDocument)
  (existing : PropertyManager.ObsidianProperties)
  (conf : PropertyManager.Confirmation) :
  vault !! path = Some doc →
  PropertyManager.frontmatter doc = PropertyManager.Block existing →
  (PropertyManager.updateProperties is_uri writeNote_fails confirmation_text
     now path incoming vault).2 = PropertyManager.Ok conf →
  ∃ merged,
    (PropertyManager.updateProperties is_uri writeNote_fails confirmation_text
       now path incoming vault).1 !! path =
      Some {| PropertyManager.body := PropertyManager.body doc;
              PropertyManager.frontmatter := PropertyManager.Block merged |} ∧
    PropertyManager.created merged =
      match PropertyManager.created existing with
      | Some c => Some c
      | None => PropertyManager.Partial.created incoming
      end.
Proof.
  intros Hdoc Hfm Hok.
  exists (PropertyManager.mergeProperties now existing incoming).
  split; [by eapply updateProperties_success|].
  reflexivity.
Qed.

Lemma created_is_write_once_witness :
  let r := PropertyManager.updateProperties Reference.any_uri
             Reference.write_succeeds Reference.updated_text
             "2026-11-02T09:30:00Z" "docs/design.md"
             Reference.example_update Reference.example_vault in
  Reference.example_vault !! "docs/design.md" = Some Reference.example_note ∧
  r.2 = PropertyManager.Ok
          {| PropertyManager.message :=
               "Successfully updated properties in docs/design.md" |} ∧
  ∃ merged,
    r.1 !! "docs/design.md" =
      Some {| PropertyManager.body := "# Design notes";
              PropertyManager.frontmatter := PropertyManager.Block merged |} ∧
    PropertyManager.created merged = Some "2025-01-24T10:00:00Z".
Proof.
  intros r.
  assert (Reference.example_vault !! "docs/design.md" = Some Reference.example_note)
    as Hdoc by (vm_compute; reflexivity).
  assert (r.2 = PropertyManager.Ok
            {| PropertyManager.message :=
                 "Successfully updated properties in docs/design.md" |})
    as Hok by (vm_compute; reflexivity).
  split; [exact Hdoc|]. split; [exact Hok|].
  exact (created_is_write_once Reference.any_uri Reference.write_succeeds
           Reference.updated_text "2026-11-02T09:30:00Z" "docs/design.md"
           Reference.example_update Reference.example_vault
           Reference.example_note Reference.example_properties _
           Hdoc eq_refl Hok).
Defined.

(** The handler's [runTool] returns only after a successful update, so what
    holds of successful updates holds whenever the tool returns. *)
Lemma UpdateProperties_runTool_returns
  (rt : JsRuntime) (tk : Tiktoken)
  (is_uri : string → bool)
  (writeNote_fails :
     gmap string PropertyManager.FrontmatterDocument → string →
     PropertyManager.FrontmatterDocument →
     option (gmap string PropertyManager.FrontmatterDocument))
  (confirmation_text : string → string)
  (raise : PropertyManager.PropertyError → JsValue)
  (now path : string) (incoming : PropertyManager.Partial.t)
  (vault : gmap string PropertyManager.FrontmatterDocument)
  (response : list TextContent) :
  (UpdatePropertiesToolHandler.runTool is_uri writeNote_fails confirmation_text
     raise now path incoming vault).2 = Returns response →
  ∃ conf,
    (PropertyManager.updateProperties is_uri writeNote_fails confirmation_text
       now path incoming vault).2 = PropertyManager.Ok conf.
Proof.
  unfold UpdatePropertiesToolHandler.runTool.
  destruct (PropertyManager.updateProperties _ _ _ _ _ _ _) as [vault' [conf|e]];
    simpl; [by eexists|].
  unfold BaseToolHandler.runTool, BaseToolHandler.handleError. simpl.
  destruct (instanceof_ObsidianError (raise e)), (instanceof_Error (raise e));
    discriminate.
Qed.

(** * Further properties of the code *)

(** ** The listeners of a process *)
Module ListenerFacts.
Import Lifecycle LifecycleFacts Listeners.
#[local] Set Warnings "-clear-no-such-hyp".

Lemma NoDup_reverse_2 {A : Type} (l : list A) : NoDup l → NoDup (reverse l).
Proof. intros H. by rewrite reverse_Permutation. Qed.

Lemma elem_of_remove_first_NoDup x y ls :
  NoDup ls → y ∈ remove_first x ls ↔ y ∈ ls ∧ y ≠ x.
Proof.
  induction ls as [|z ls IH]; simpl; intros Hnd.
  - rewrite elem_of_nil. naive_solver.
  - apply NoDup_cons in Hnd as [Hz Hnd].
    destruct (decide (x = z)) as [->|Hne].
    + rewrite elem_of_cons. naive_solver.
    + rewrite !elem_of_cons, IH by done. naive_solver.
Qed.

Lemma NoDup_remove_first x ls : NoDup ls → NoDup (remove_first x ls).
Proof.
  induction ls as [|z ls IH]; simpl; intros Hnd; [done|].
  apply NoDup_cons in Hnd as [Hz Hnd].
  destruct (decide (x = z)) as [->|Hne]; [done|].
  apply NoDup_cons. split; [|by apply IH].
  rewrite elem_of_remove_first_NoDup by done. naive_solver.
Qed.

Lemma process_off_NoDup ev j ls :
  NoDup ls →
  NoDup (process_off ev j ls) ∧
  ∀ y, y ∈ process_off ev j ls ↔ y ∈ ls ∧ y ≠ (ev, j).
Proof.
  intros Hnd. unfold process_off.
  assert (NoDup (reverse ls)) as Hr by by apply NoDup_reverse_2.
  split.
  - by apply NoDup_reverse_2, NoDup_remove_first.
  - intros y. rewrite elem_of_reverse, elem_of_remove_first_NoDup by done.
    by rewrite elem_of_reverse.
Qed.

(** [removeListeners] detaches exactly the listeners of its own object. *)
Lemma removeListeners_NoDup j p :
  NoDup (listeners p) →
  NoDup (listeners (removeListeners j p)) ∧
  ∀ ev i, (ev, i) ∈ listeners (removeListeners j p) ↔
          (ev, i) ∈ listeners p ∧ i ≠ j.
Proof.
  intros H0. simpl.
  destruct (process_off_NoDup EvExit j _ H0) as [H1 E1].
  destruct (process_off_NoDup EvSIGINT j _ H1) as [H2 E2].
  destruct (process_off_NoDup EvSIGTERM j _ H2) as [H3 E3].
  destruct (process_off_NoDup EvUncaughtException j _ H3) as [H4 E4].
  split; [done|].
  intros ev i. rewrite E4, E3, E2, E1.
  split.
  - intros [[[[Hin Ha] Hb] Hc] Hd]. split; [done|].
    intros ->. destruct ev; congruence.
  - intros [Hin Hne]. repeat split; try done; congruence.
Qed.

Lemma accounted_boot : accounted boot.
Proof.
  split; [apply NoDup_nil_2|]. intros ev i. simpl.
  rewrite elem_of_nil, lookup_nil. naive_solver.
Qed.

Lemma attached_NoDup (n : nat) :
  NoDup [(EvExit, n); (EvSIGINT, n); (EvSIGTERM, n); (EvUncaughtException, n)].
Proof.
  repeat (apply NoDup_cons; split;
          [rewrite ?elem_of_cons, elem_of_nil; naive_solver|]).
  apply NoDup_nil_2.
Qed.

Lemma elem_of_attached ev i (n : nat) :
  (ev, i) ∈ [(EvExit, n); (EvSIGINT, n); (EvSIGTERM, n); (EvUncaughtException, n)]
  ↔ i = n.
Proof.
  rewrite !elem_of_cons, elem_of_nil. split; [naive_solver|].
  intros ->. destruct ev; naive_solver.
Qed.

Lemma accounted_construct c p : accounted p → accounted (construct c p).
Proof.
  intros [Hnd Hchar]. unfold construct, attach; simpl. split.
  - apply NoDup_app. split; [done|]. split; [|apply attached_NoDup].
    intros [ev i] Hin. rewrite elem_of_attached. intros ->.
    apply Hchar in Hin as (o & Ho & _).
    apply lookup_lt_Some in Ho. lia.
  - intros ev i. simpl. rewrite elem_of_app, elem_of_attached, Hchar. split.
    + intros [(o & Ho & Hc)| ->].
      * exists o. split; [by apply lookup_app_l_Some | done].
      * eexists. split; [apply list_lookup_middle; done | done].
    + intros (o & Ho & Hc). apply lookup_app_Some in Ho as [Ho|[Hge Ho]].
      * left. by exists o.
      * right. apply list_lookup_singleton_Some in Ho as [Hi _]. lia.
Qed.

Lemma accounted_TokenCounter_cleanupListener j p :
  (∀ o, heap p !! j = Some o → class o = TokenCounterClass) →
  accounted p → accounted (TokenCounter_cleanupListener j p).
Proof.
  intros Hclass [Hnd Hchar]. unfold TokenCounter_cleanupListener.
  destruct (heap p !! j) as [o|] eqn:Ho; [|done].
  destruct (isShuttingDown o) eqn:Hs; [done|].
  pose proof (lookup_lt_Some _ _ _ Ho) as Hlt.
  set (o' := {| class := class o; tokenizer := free (tokenizer o);
                isShuttingDown := true |}).
  destruct (removeListeners_NoDup j (store j o' p) Hnd) as [Hnd' Hrem].
  split; [exact Hnd'|].
  intros ev i. rewrite Hrem. simpl. rewrite Hchar.
  destruct (decide (i = j)) as [->|Hne].
  - rewrite list_lookup_insert_eq by done. split; [naive_solver|].
    intros (o1 & [= <-] & Hc). simpl in Hc.
    specialize (Hc (Hclass o eq_refl)). done.
  - rewrite list_lookup_insert_ne by done. naive_solver.
Qed.

Lemma accounted_BaseToolHandler_cleanup j p :
  (∀ o, heap p !! j = Some o → class o ≠ TokenCounterClass) →
  accounted p → accounted (BaseToolHandler_cleanup j p).
Proof.
  intros Hclass [Hnd Hchar]. unfold BaseToolHandler_cleanup.
  destruct (heap p !! j) as [o|] eqn:Ho; [|done].
  destruct (isShuttingDown o) eqn:Hs; [done|].
  pose proof (lookup_lt_Some _ _ _ Ho) as Hlt.
  split; [exact Hnd|].
  intros ev i. simpl. rewrite Hchar.
  destruct (decide (i = j)) as [->|Hne].
  - rewrite list_lookup_insert_eq by done. rewrite Ho. split.
    + intros _. eexists. split; [done|]. simpl. intros Hc.
      by destruct (Hclass o eq_refl).
    + intros _. exists o. split; [done|]. intros Hc.
      by destruct (Hclass o eq_refl).
  - by rewrite list_lookup_insert_ne.
Qed.

Lemma accounted_call_listener p j : accounted p → accounted (call_listener p j).
Proof.
  intros Ha. unfold call_listener.
  destruct (heap p !! j) as [o|] eqn:Ho; [|done].
  destruct (class o) eqn:Hc.
  - apply accounted_TokenCounter_cleanupListener; [|done].
    intros o0 Ho0. congruence.
  - apply accounted_BaseToolHandler_cleanup; [|done].
    intros o0 Ho0. congruence.
Qed.

Lemma accounted_foldl_call_listener js p :
  accounted p → accounted (foldl call_listener p js).
Proof.
  revert p. induction js as [|j js IH]; intros p Ha; simpl; [done|].
  apply IH, accounted_call_listener, Ha.
Qed.

Lemma accounted_step p op : accounted p → accounted (step p op).
Proof.
  intros Ha. destruct op; simpl; try done.
  - by apply accounted_construct.
  - by apply accounted_construct.
  - unfold cleanup. destruct (heap p !! i) as [o|] eqn:Ho; [|done].
    destruct (class o) eqn:Hc; [|done].
    apply accounted_TokenCounter_cleanupListener; [|done].
    intros o0 Ho0. congruence.
  - by apply accounted_foldl_call_listener.
Qed.

Lemma accounted_run ops : accounted (run ops).
Proof.
  unfold run. generalize accounted_boot. generalize boot.
  induction ops as [|op ops IH]; intros p Ha; simpl; [done|].
  apply IH, accounted_step, Ha.
Qed.

(** [cleanup()] writes to its own object only. *)
Lemma cleanup_other i j p : i ≠ j → heap (cleanup i p) !! j = heap p !! j.
Proof.
  intros Hne. unfold cleanup, TokenCounter_cleanupListener.
  destruct (heap p !! i) as [o|]; [|done].
  destruct (class o); [|done].
  destruct (isShuttingDown o); [done|].
  simpl. by apply list_lookup_insert_ne.
Qed.

End ListenerFacts.

Lemma emit_releases_every_tokenizer_witness :
  let ops := [Lifecycle.NewTokenCounter;
              Lifecycle.NewBaseToolHandler TOOL_NAMES.COMPLEX_SEARCH] in
  let o := {| Lifecycle.class := Lifecycle.BaseToolHandlerClass TOOL_NAMES.COMPLEX_SEARCH;
              Lifecycle.tokenizer := {| Lifecycle.frees := 1 |};
              Lifecycle.isShuttingDown := true |} in
  Lifecycle.heap (Lifecycle.run (ops ++ [Lifecycle.Emit Lifecycle.EvSIGTERM])) !! 1
    = Some o ∧
  Lifecycle.isShuttingDown o = true ∧
  Lifecycle.frees (Lifecycle.tokenizer o) = 1.
Proof.
  intros ops o. split; [reflexivity|].
  apply (LifecycleFacts.emit_releases_every_tokenizer ops Lifecycle.EvSIGTERM 1 o).
  reflexivity.
Defined.

(** In every reachable process no listener is attached twice, and the
    cleanup closure of an object is attached for an event exactly when the
    object is a tool handler (whose listeners are never detached, released or
    not) or a [TokenCounter] that has not been released (release detaches its
    four listeners). *)
Theorem listeners_are_accounted_for (ops : list Lifecycle.Op) :
  NoDup (Lifecycle.listeners (Lifecycle.run ops)) ∧
  ∀ ev i,
    (ev, i) ∈ Lifecycle.listeners (Lifecycle.run ops) ↔
    ∃ o, Lifecycle.heap (Lifecycle.run ops) !! i = Some o ∧
         (Lifecycle.class o = Lifecycle.TokenCounterClass →
          Lifecycle.isShuttingDown o = false).
Proof. exact (ListenerFacts.accounted_run ops). Qed.

(** ** Truncation, for every budget *)

Lemma slice0_is_take {A : Type} (xs : list A) (e : JsNum) :
  ∃ k, k ≤ length xs ∧ slice0 xs e = take k xs.
Proof.
  unfold slice0.
  set (final := if (_ <? 0)%Z then _ else _).
  destruct (decide (Z.to_nat final ≤ length xs)) as [Hle|Hgt].
  - by exists (Z.to_nat final).
  - exists (length xs). split; [done|].
    rewrite !take_ge; [done | lia | lia].
Qed.

Lemma slice0_NaN {A : Type} (xs : list A) : slice0 xs NaN = [].
Proof. unfold slice0. simpl. by rewrite Z.min_l by lia. Qed.

(** Whatever the budget (negative and [NaN] included), truncation returns
    the text itself when its token count is within the budget, and otherwise
    the decoding of some prefix of the text's tokens followed by the marker:
    tokens are only ever dropped from the end.  The same holds for the
    handler's inline copy. *)
Theorem truncation_keeps_a_token_prefix
  (rt : JsRuntime) (tk : Tiktoken) (T : string) (L : JsNum) :
  (js_le (TokenCounter.countTokens T) L = true ∧
   TokenCounter.truncateToTokenLimit T L = T
   ∨
   js_le (TokenCounter.countTokens T) L = false ∧
   ∃ k, k ≤ TokenCounter.countTokens T ∧
        TokenCounter.truncateToTokenLimit T L =
          decode (take k (encode T)) +:+ TokenCounter.TRUNCATION_MESSAGE) ∧
  (js_le (BaseToolHandler.countTokens T) BaseToolHandler.MAX_TOKENS = true ∧
   BaseToolHandler.truncateToTokenLimit T = T
   ∨
   js_le (BaseToolHandler.countTokens T) BaseToolHandler.MAX_TOKENS = false ∧
   ∃ k, k ≤ BaseToolHandler.countTokens T ∧
        BaseToolHandler.truncateToTokenLimit T =
          decode (take k (encode T)) +:+ BaseToolHandler.TRUNCATION_MESSAGE).
Proof.
  assert (∀ L',
    js_le (TokenCounter.countTokens T) L' = true ∧
    TokenCounter.truncateToTokenLimit T L' = T
    ∨
    js_le (TokenCounter.countTokens T) L' = false ∧
    ∃ k, k ≤ TokenCounter.countTokens T ∧
         TokenCounter.truncateToTokenLimit T L' =
           decode (take k (encode T)) +:+ TokenCounter.TRUNCATION_MESSAGE) as H.
  { intros L'. unfold TokenCounter.truncateToTokenLimit, TokenCounter.countTokens.
    destruct (js_le (length (encode T)) L') eqn:Hle; [by left|right].
    split; [done|].
    destruct (slice0_is_take (encode T)
      (js_sub L' (length (encode TokenCounter.TRUNCATION_MESSAGE))))
      as (k & Hk & ->).
    by exists k. }
  split; [apply H|]. exact (H BaseToolHandler.MAX_TOKENS).
Qed.

(** ** What [createResponse] writes to the debug log *)
Section debug_log.
Context {rt : JsRuntime} {tk : Tiktoken}.



End debug_log.



(** ** Errors leaving a tool *)

(** Whatever a tool's operation or its response building throws, the value
    that leaves [runTool] is an [ObsidianError]; and an error that has passed
    through [handleError] once is rethrown unchanged by any later
    [handleError], so it is never wrapped twice. *)
Theorem runTool_throws_only_ObsidianError
  (rt : JsRuntime) (tk : Tiktoken) (name : string)
  (operation : Outcome JsValue) (e : JsValue) :
  BaseToolHandler.runTool name operation = Throws e →
  instanceof_ObsidianError e = true ∧
  ∀ name', BaseToolHandler.handleError (A := list TextContent) name' e = Throws e.
Proof.
  intros Hrun.
  assert (instanceof_ObsidianError e = true) as He.
  { revert Hrun. unfold BaseToolHandler.runTool.
    destruct (operation ≫= _) as [r|err]; [discriminate|].
    unfold BaseToolHandler.handleError.
    destruct (instanceof_ObsidianError err) eqn:Hoe.
    - by intros [= <-].
    - destruct (instanceof_Error err); by intros [= <-]. }
  split; [exact He|].
  intros name'. unfold BaseToolHandler.handleError. by rewrite He.
Qed.

Lemma runTool_throws_only_ObsidianError_witness :
  let rt := Reference.node_runtime in
  let tk := Reference.char_tokenizer in
  let e := JObsidianError
             "Tool 'obsidian_append_content' execution failed with unknown error"
             500 (JObject [("error", JString "disk full")]) None in
  BaseToolHandler.runTool TOOL_NAMES.APPEND_CONTENT (Throws (JString "disk full"))
    = Throws e ∧
  instanceof_ObsidianError e = true ∧
  BaseToolHandler.handleError (A := list TextContent) TOOL_NAMES.PATCH_CONTENT e
    = Throws e.
Proof.
  intros rt tk e.
  destruct (runTool_throws_only_ObsidianError rt tk TOOL_NAMES.APPEND_CONTENT
              (Throws (JString "disk full")) e eq_refl) as [He Hre].
  split; [reflexivity|]. split; [exact He|]. exact (Hre TOOL_NAMES.PATCH_CONTENT).
Defined.

(** ** The file list of [FindInFileToolHandler] *)
Module FindInFileFacts.
Import FindInFileToolHandler.
#[local] Set Warnings "-clear-no-such-hyp".

Lemma NoDup_Set_add acc y : NoDup acc → NoDup (Set_add acc y).
Proof.
  intros Hnd. unfold Set_add. destruct (decide (y ∈ acc)) as [Hin|Hnin]; [done|].
  apply NoDup_app. split; [done|]. split; [|apply NoDup_singleton].
  intros x Hx. rewrite list_elem_of_singleton. by intros ->.
Qed.

Lemma foldl_Set_add_spec xs acc :
  NoDup acc →
  NoDup (foldl Set_add acc xs) ∧
  ∀ x, x ∈ foldl Set_add acc xs ↔ x ∈ acc ∨ x ∈ xs.
Proof.
  revert acc. induction xs as [|y xs IH]; intros acc Hnd; simpl.
  - split; [done|]. intros x. rewrite elem_of_nil. naive_solver.
  - destruct (IH _ (NoDup_Set_add acc y Hnd)) as [H1 H2].
    split; [done|]. intros x. rewrite H2, elem_of_cons. unfold Set_add.
    destruct (decide (y ∈ acc)) as [Hin|Hnin]; [naive_solver|].
    rewrite elem_of_app, list_elem_of_singleton. naive_solver.
Qed.

Lemma Set_values_spec xs :
  NoDup (Set_values xs) ∧ ∀ x, x ∈ Set_values xs ↔ x ∈ xs.
Proof.
  destruct (foldl_Set_add_spec xs [] (NoDup_nil_2)) as [H1 H2].
  split; [done|]. intros x. unfold Set_values. rewrite H2, elem_of_nil.
  naive_solver.
Qed.

Section facts.
Context {rt : JsRuntime} {tk : Tiktoken}.
Variable code_unit_le : string → string → bool.

Lemma filenames_spec (results : list SearchResult) :
  NoDup (filenames code_unit_le results) ∧
  ∀ f, f ∈ filenames code_unit_le results ↔
       ∃ r, r ∈ results ∧ filename r = f.
Proof.
  unfold filenames, Array_sort.
  destruct (Set_values_spec (filename <$> results)) as [H1 H2].
  split.
  - by rewrite merge_sort_Permutation.
  - intros f. rewrite merge_sort_Permutation, H2, list_elem_of_fmap.
    naive_solver.
Qed.

Lemma elem_of_filenames (results : list SearchResult) (f : string) :
  f ∈ filenames code_unit_le results ↔ f ∈ filename <$> results.
Proof.
  unfold filenames, Array_sort.
  destruct (Set_values_spec (filename <$> results)) as [_ H2].
  by rewrite merge_sort_Permutation, H2.
Qed.

End facts.
End FindInFileFacts.

(** The character-wise order on strings is transitive. *)
Lemma ascii_compare_refl (a : ascii) : Ascii.compare a a = Eq.
Proof. unfold Ascii.compare. apply N.compare_refl. Qed.

Lemma ascii_le_trans (a b c : string) :
  Examples.ascii_le a b = true → Examples.ascii_le b c = true →
  Examples.ascii_le a c = true.
Proof.
  unfold Examples.ascii_le, String.leb.
  revert b c. induction a as [|x a IH]; intros [|y b] [|z c]; simpl; try done.
  destruct (Ascii.compare x y) eqn:Hxy; [| |done].
  - apply Ascii.compare_eq_iff in Hxy as ->.
    destruct (Ascii.compare y z); [apply IH|done|done].
  - destruct (Ascii.compare y z) eqn:Hyz; [| |done].
    + apply Ascii.compare_eq_iff in Hyz as <-. by rewrite Hxy.
    + unfold Ascii.compare in *.
      apply N.compare_lt_iff in Hxy, Hyz.
      pose proof (N.lt_trans _ _ _ Hxy Hyz) as Hlt.
      apply N.compare_lt_iff in Hlt. by rewrite Hlt.
Qed.

Lemma Sorted_weaken {A : Type} (R R' : relation A) (l : list A) :
  (∀ a b, R a b → R' a b) → Sorted R l → Sorted R' l.
Proof.
  intros HR. induction 1 as [|x l Hs IH Hhd]; constructor; [done|].
  destruct Hhd; constructor; auto.
Qed.

(** For a total order on strings the list the search tool builds is sorted,
    and it depends only on which file names occur in the search results: two
    result lists naming the same files, in any order and with any
    repetitions, give the same list and the same response. *)
Theorem FindInFile_sorted_and_order_independent
  (rt : JsRuntime) (tk : Tiktoken) (code_unit_le : string → string → bool)
  (results1 results2 : list FindInFileToolHandler.SearchResult) :
  (∀ a b, code_unit_le a b = true ∨ code_unit_le b a = true) →
  (∀ a b c, code_unit_le a b = true → code_unit_le b c = true →
            code_unit_le a c = true) →
  (∀ a b, code_unit_le a b = true → code_unit_le b a = true → a = b) →
  Sorted (λ a b, code_unit_le a b = true)
         (FindInFileToolHandler.filenames code_unit_le results1) ∧
  ((∀ f, f ∈ FindInFileToolHandler.filename <$> results1 ↔
         f ∈ FindInFileToolHandler.filename <$> results2) →
   FindInFileToolHandler.filenames code_unit_le results1 =
     FindInFileToolHandler.filenames code_unit_le results2 ∧
   FindInFileToolHandler.runTool code_unit_le (Returns results1) =
     FindInFileToolHandler.runTool code_unit_le (Returns results2)).
Proof.
  intros Htotal Htrans Hanti.
  set (R := λ a b : string, Is_true (code_unit_le a b)).
  assert (Total R) as HT.
  { intros a b. unfold R. destruct (Htotal a b) as [->| ->]; simpl; auto. }
  assert (Transitive R) as HTr.
  { intros a b c Hab Hbc. unfold R in *.
    apply Is_true_true in Hab, Hbc. apply Is_true_true. eauto. }
  assert (AntiSymm (=) R) as HA.
  { intros a b Hab Hba. unfold R in *.
    apply Is_true_true in Hab, Hba. eauto. }
  assert (∀ results,
    Sorted R (FindInFileToolHandler.filenames code_unit_le results)) as Hsorted.
  { intros results. apply (Sorted_merge_sort R). }
  split.
  - apply (Sorted_weaken R); [|apply Hsorted].
    intros a b. apply Is_true_true.
  - intros Hsame.
    assert (FindInFileToolHandler.filenames code_unit_le results1 =
            FindInFileToolHandler.filenames code_unit_le results2) as Heq.
    { apply (Sorted_unique R); [apply Hsorted | apply Hsorted |].
      apply NoDup_Permutation.
      - apply (FindInFileFacts.filenames_spec code_unit_le results1).
      - apply (FindInFileFacts.filenames_spec code_unit_le results2).
      - intros f. by rewrite !FindInFileFacts.elem_of_filenames. }
    split; [exact Heq|].
    unfold FindInFileToolHandler.runTool. simpl. by rewrite Heq.
Qed.

Lemma FindInFile_sorted_and_order_independent_witness :
  let rt := Reference.node_runtime in
  let tk := Reference.char_tokenizer in
  let hit (f : string) :=
    {| FindInFileToolHandler.filename := f;
       FindInFileToolHandler.matches := JArray [] |} in
  let results1 := [hit "Projects/MCP.md"; hit "Daily/2025-01-24.md";
                   hit "Projects/MCP.md"] in
  let results2 := [hit "Daily/2025-01-24.md"; hit "Projects/MCP.md"] in
  FindInFileToolHandler.filenames Examples.ascii_le results1 =
    ["Daily/2025-01-24.md"; "Projects/MCP.md"] ∧
  Sorted (λ a b, Examples.ascii_le a b = true)
         (FindInFileToolHandler.filenames Examples.ascii_le results1) ∧
  FindInFileToolHandler.runTool Examples.ascii_le (Returns results1) =
    FindInFileToolHandler.runTool Examples.ascii_le (Returns results2).
Proof.
  intros rt tk hit results1 results2.
  destruct (FindInFile_sorted_and_order_independent rt tk Examples.ascii_le
              results1 results2 String.leb_total ascii_le_trans
              String.leb_antisym) as [Hsorted Hsame].
  split; [vm_compute; reflexivity|]. split; [exact Hsorted|].
  apply Hsame. intros f. subst results1 results2. simpl.
  rewrite !elem_of_cons, elem_of_nil. tauto.
Defined.

(** ** How many tokens survive truncation *)

(** For a text over an integer budget [l] the result is the decoding of the
    first [kept] tokens followed by the marker, where, with [reserved] the
    marker's token count: [kept = l - reserved] when the budget covers the
    marker, and otherwise [kept = max(0, count(T) - (reserved - l))], because
    [slice] counts a negative end from the end of the array. *)
Theorem truncation_kept_tokens (tk : Tiktoken) (T : string) (l : Z) :
  js_gt (TokenCounter.countTokens T) (Num l) = true →
  let reserved := Z.of_nat (TokenCounter.countTokens TokenCounter.TRUNCATION_MESSAGE) in
  let kept :=
    if (l <? reserved)%Z
    then Z.to_nat (Z.max 0 (Z.of_nat (TokenCounter.countTokens T) - (reserved - l)))
    else Z.to_nat (l - reserved) in
  TokenCounter.truncateToTokenLimit T (Num l) =
    decode (take kept (encode T)) +:+ TokenCounter.TRUNCATION_MESSAGE.
Proof.
  intros Hover reserved kept.
  rewrite truncate_over_budget_unfold by done. simpl. f_equal. f_equal.
  subst kept. fold reserved. simpl in Hover. apply Z.ltb_lt in Hover.
  destruct (Z.ltb_spec l reserved) as [Hlt|Hge].
  - unfold slice0. unfold TokenCounter.countTokens in *.
    rewrite (proj2 (Z.ltb_lt _ _)) by (fold reserved; lia).
    fold reserved. f_equal. lia.
  - by rewrite slice0_nonneg by lia.
Qed.

Lemma truncation_kept_tokens_witness :
  let tk := Reference.char_tokenizer in
  let T := "hello world, this is a long text that must be cut somewhere" in
  js_gt (TokenCounter.countTokens T) (Num 30) = true ∧
  TokenCounter.truncateToTokenLimit T (Num 30) =
    decode (take 53 (encode T)) +:+ TokenCounter.TRUNCATION_MESSAGE.
Proof.
  intros tk T. split; [reflexivity|].
  exact (truncation_kept_tokens tk T 30 eq_refl).
Defined.

(** * The methods on the [tiktoken] binding *)

Section binding.
Context {rt : JsRuntime} {b : TiktokenBinding}.

(** Over budget, the text in front of the marker is the [Uint8Array] that
    [decode] returns, converted by [+]: the byte values, comma-joined. *)
Lemma Binding_truncate_over_budget (s : string) (ts ms : list N) (L : JsNum) :
  wasm_encode s = Returns ts →
  js_le (length ts) L = false →
  wasm_encode TokenCounter.TRUNCATION_MESSAGE = Returns ms →
  Binding.truncateToTokenLimit (Some s) L =
    Returns (Some (Uint8Array_toString
                     (wasm_decode (slice0 ts (js_sub L (length ms))))
                   +:+ TokenCounter.TRUNCATION_MESSAGE)).
Proof.
  intros Hs Hle Hm. unfold Binding.truncateToTokenLimit. simpl.
  rewrite Hs. simpl. rewrite Hle, Hm. reflexivity.
Qed.

Lemma Binding_truncate_within_budget (s : string) (ts : list N) (L : JsNum) :
  wasm_encode s = Returns ts →
  js_le (length ts) L = true →
  Binding.truncateToTokenLimit (Some s) L = Returns (Some s).
Proof.
  intros Hs Hle. unfold Binding.truncateToTokenLimit. simpl.
  rewrite Hs. simpl. by rewrite Hle.
Qed.

(** Where [encode] returns, the call on the binding computes what the
    definitions over [Tiktoken] compute, read with [decode] as the string
    that [+] makes of the decoded bytes. *)
Lemma slice0_fmap {A B : Type} (f : A → B) (xs : list A) (e : JsNum) :
  slice0 (f <$> xs) e = f <$> slice0 xs e.
Proof. unfold slice0. by rewrite length_fmap, fmap_take. Qed.

Lemma of_nat_to_nat_fmap (xs : list N) : N.of_nat <$> (N.to_nat <$> xs) = xs.
Proof.
  induction xs as [|x xs IH]; [done|].
  by rewrite !fmap_cons, IH, N2Nat.id.
Qed.

Lemma Binding_truncate_is_TokenCounter_truncate
  (s : string) (ts ms : list N) (L : JsNum) :
  wasm_encode s = Returns ts →
  wasm_encode TokenCounter.TRUNCATION_MESSAGE = Returns ms →
  Binding.truncateToTokenLimit (Some s) L =
    Returns (Some (@TokenCounter.truncateToTokenLimit (Binding.accepted_view b) s L)).
Proof.
  intros Hs Hm.
  unfold TokenCounter.truncateToTokenLimit. simpl. rewrite Hs, Hm.
  rewrite !length_fmap.
  destruct (js_le (length ts) L) eqn:Hle.
  - by apply (Binding_truncate_within_budget s ts).
  - rewrite slice0_fmap, of_nat_to_nat_fmap.
    by apply (Binding_truncate_over_budget s ts ms).
Qed.

End binding.

(** [C1] The claimed bound fails on the code.  [decode] returns the bytes of
    the kept tokens as a [Uint8Array], and [truncatedText + TRUNCATION_MESSAGE]
    turns them into their comma-joined decimal values.  For the text below
    (13 tokens), the marker (8 tokens) and the budget 11, which covers the
    marker, the code keeps [available = 3] tokens, whose 12 bytes become the
    text [104,101,...,44]; the result ends with the marker but has 31
    tokens, more than the budget.  With the budget 0, below the marker's
    cost, [available] is -8 and [slice(0, -8)] keeps the first 5 tokens
    instead of none. *)
Theorem truncate_exceeds_budget_at_failing_input :
  let b := Examples.piece_binding in
  let T := "hello world, this is a long text that must be cut somewhere" in
  let result :=
    "104,101,108,108,111,32,119,111,114,108,100,44"
      +:+ TokenCounter.TRUNCATION_MESSAGE in
  Binding.countTokens (Some T) = Returns 13 ∧
  Binding.countTokens (Some TokenCounter.TRUNCATION_MESSAGE) = Returns 8 ∧
  Binding.truncateToTokenLimit (Some T) (Num 11) = Returns (Some result) ∧
  Binding.countTokens (Some result) = Returns 31 ∧
  js_le 31 (Num 11) = false ∧
  Binding.truncateToTokenLimit (Some T) (Num 0) =
    Returns (Some ("104,101,108,108,111,32,119,111,114,108,100,44,32,116,104,105,115,32,105,115"
                   +:+ TokenCounter.TRUNCATION_MESSAGE)).
Proof. vm_compute. repeat split. Qed.

(** [C10] [createResponse] returns exactly one text content unit.  Whenever
    it returns, its value is a one-element array whose element has type
    ["text"].  It returns the normalized text itself when [encode] accepts
    the text and its token count is within the budget; and it returns the
    truncated text when [encode] accepts the text, the marker and the
    truncated text.  (It throws when a call of [encode] throws, as on a text
    holding a special token.) *)
Theorem createResponse_one_text_unit
  (rt : JsRuntime) (b : TiktokenBinding) (name : string) (content : JsValue) :
  (∀ r, Binding.createResponse name content = Returns r →
        ∃ t, r = [ {| type := "text"; text := t |} ]) ∧
  (∀ s ts,
     BaseToolHandler.createResponse_text content = Some s →
     wasm_encode s = Returns ts →
     js_le (length ts) BaseToolHandler.MAX_TOKENS = true →
     Binding.createResponse name content =
       Returns [ {| type := "text"; text := Some s |} ]) ∧
  (∀ s ts ms rs,
     BaseToolHandler.createResponse_text content = Some s →
     wasm_encode s = Returns ts →
     js_le (length ts) BaseToolHandler.MAX_TOKENS = false →
     wasm_encode TokenCounter.TRUNCATION_MESSAGE = Returns ms →
     wasm_encode
       (Uint8Array_toString
          (wasm_decode (slice0 ts (js_sub BaseToolHandler.MAX_TOKENS (length ms))))
        +:+ TokenCounter.TRUNCATION_MESSAGE) = Returns rs →
     Binding.createResponse name content =
       Returns [ {| type := "text";
                    text := Some (Uint8Array_toString
                                    (wasm_decode
                                       (slice0 ts (js_sub BaseToolHandler.MAX_TOKENS
                                                          (length ms))))
                                  +:+ TokenCounter.TRUNCATION_MESSAGE) |} ]).
Proof.
  split; [|split].
  - intros r. unfold Binding.createResponse, Binding.createResponse_logged.
    destruct (Binding.countTokens _) as [n|e]; simpl; [|discriminate].
    destruct (Binding.truncateToTokenLimit _ _) as [t|e]; simpl; [|discriminate].
    destruct (Binding.countTokens t) as [m|e]; simpl; [|discriminate].
    intros [= <-]. by eexists.
  - intros s ts Ht Hs Hle.
    unfold Binding.createResponse, Binding.createResponse_logged.
    rewrite Ht, (Binding_truncate_within_budget s ts _ Hs Hle).
    unfold Binding.countTokens. simpl. by rewrite Hs.
  - intros s ts ms rs Ht Hs Hle Hm Hr.
    unfold Binding.createResponse, Binding.createResponse_logged.
    rewrite Ht, (Binding_truncate_over_budget s ts ms _ Hs Hle Hm).
    unfold Binding.countTokens. simpl. rewrite Hs. simpl. by rewrite Hr.
Qed.

Lemma createResponse_one_text_unit_witness :
  let rt := Examples.budget_11_runtime in
  let b := Examples.piece_binding in
  let long := "hello world, this is a long text that must be cut somewhere" in
  Binding.createResponse TOOL_NAMES.GET_FILE_CONTENTS (JString "hello world") =
    Returns [ {| type := "text"; text := Some "hello world" |} ] ∧
  Binding.createResponse TOOL_NAMES.GET_FILE_CONTENTS (JString long) =
    Returns [ {| type := "text";
                 text := Some ("104,101,108,108,111,32,119,111,114,108,100,44"
                               +:+ TokenCounter.TRUNCATION_MESSAGE) |} ] ∧
  ∃ t, [ {| type := "text";
            text := Some ("104,101,108,108,111,32,119,111,114,108,100,44"
                          +:+ TokenCounter.TRUNCATION_MESSAGE) |} ]
       = [ {| type := "text"; text := t |} ].
Proof.
  intros rt b long.
  destruct (createResponse_one_text_unit rt b TOOL_NAMES.GET_FILE_CONTENTS
              (JString "hello world")) as (_ & Hin & _).
  destruct (createResponse_one_text_unit rt b TOOL_NAMES.GET_FILE_CONTENTS
              (JString long)) as (Hone & _ & Hover).
  assert (Binding.createResponse TOOL_NAMES.GET_FILE_CONTENTS (JString long) =
    Returns [ {| type := "text";
                 text := Some ("104,101,108,108,111,32,119,111,114,108,100,44"
                               +:+ TokenCounter.TRUNCATION_MESSAGE) |} ]) as Hlong.
  { set (tokens_of := λ s, match wasm_encode s with
                             | Returns ts => ts
                             | Throws _ => []
                             end).
    exact (Hover long (tokens_of long)
             (tokens_of TokenCounter.TRUNCATION_MESSAGE)
             (tokens_of ("104,101,108,108,111,32,119,111,114,108,100,44"
                         +:+ TokenCounter.TRUNCATION_MESSAGE))
             eq_refl eq_refl eq_refl eq_refl eq_refl). }
  split.
  - exact (Hin "hello world"
             (match wasm_encode "hello world" with
              | Returns ts => ts
              | Throws _ => []
              end) eq_refl eq_refl eq_refl).
  - split; [exact Hlong|]. exact (Hone _ Hlong).
Defined.

(** A text holding a special token makes [createResponse] throw, and the
    tool answers with the wrapped error instead of a text. *)
Example createResponse_special_token :
  let rt := Examples.budget_11_runtime in
  let b := Examples.piece_binding in
  Binding.createResponse TOOL_NAMES.GET_FILE_CONTENTS (JString "<|endoftext|>") =
    Throws (JError "The text contains a special token that is not allowed" None) ∧
  Binding.runTool TOOL_NAMES.GET_FILE_CONTENTS (Returns (JString "<|endoftext|>")) =
    Throws (JObsidianError
              "Tool 'obsidian_get_file_contents' execution failed: The text contains a special token that is not allowed"
              500 (JObject [("originalError", JUndefined)]) None).
Proof. vm_compute. split; reflexivity. Qed.

(** Until an object is released its tokenizer has not been freed, so its
    [countTokens] and [truncateToTokenLimit] are the calls on the live
    tokenizer, with the same outcome, returned or thrown; and an explicit
    [cleanup()] of another object does not change it. *)
Theorem unreleased_objects_stay_usable
  (b : TiktokenBinding) (ops : list Lifecycle.Op) (j : nat) (o : Lifecycle.Obj)
  (text : JsText) (limit : JsNum) :
  Lifecycle.heap (Lifecycle.run ops) !! j = Some o →
  Lifecycle.isShuttingDown o = false →
  Lifecycle.frees (Lifecycle.tokenizer o) = 0 ∧
  Lifecycle.countTokens o text = Binding.countTokens text ∧
  Lifecycle.truncateToTokenLimit o text limit =
    Binding.truncateToTokenLimit text limit ∧
  ∀ i, i ≠ j →
       Lifecycle.heap (Lifecycle.run (ops ++ [Lifecycle.CallCleanup i])) !! j
       = Some o.
Proof.
  intros Ho Hs.
  pose proof (LifecycleFacts.Inv_run ops j o Ho) as Hc.
  unfold Lifecycle.consistent in Hc. rewrite Hs in Hc.
  split; [exact Hc|].
  split; [by apply LifecycleFacts.countTokens_live|].
  split; [by apply LifecycleFacts.truncateToTokenLimit_live|].
  intros i Hne. unfold Lifecycle.run. rewrite foldl_app. simpl.
  fold (Lifecycle.run ops). by rewrite ListenerFacts.cleanup_other.
Qed.

Lemma unreleased_objects_stay_usable_witness :
  let b := Examples.piece_binding in
  let ops := [Lifecycle.NewTokenCounter;
              Lifecycle.NewBaseToolHandler TOOL_NAMES.GET_FILE_CONTENTS] in
  let o := {| Lifecycle.class := Lifecycle.BaseToolHandlerClass TOOL_NAMES.GET_FILE_CONTENTS;
              Lifecycle.tokenizer := {| Lifecycle.frees := 0 |};
              Lifecycle.isShuttingDown := false |} in
  Lifecycle.heap (Lifecycle.run ops) !! 1 = Some o ∧
  Lifecycle.countTokens o (Some "hello world") = Returns 2 ∧
  Lifecycle.heap (Lifecycle.run (ops ++ [Lifecycle.CallCleanup 0])) !! 1 = Some o.
Proof.
  intros b ops o.
  destruct (unreleased_objects_stay_usable b ops 1 o (Some "hello world") NaN
              eq_refl eq_refl) as (_ & Hcount & _ & Hother).
  split; [reflexivity|]. split; [by rewrite Hcount|].
  apply Hother. lia.
Defined.

(** When the configured budget is not a number ([parseInt] gives [NaN]) and
    [encode] accepts the text, the marker and the result, [createResponse]
    cuts the response to what [decode] gives for no tokens followed by the
    marker, however short the text, and writes no debug entry. *)
Theorem createResponse_with_NaN_budget
  (rt : JsRuntime) (b : TiktokenBinding) (name : string) (content : JsValue)
  (s : string) (ts ms rs : list N) :
  BaseToolHandler.createResponse_text content = Some s →
  BaseToolHandler.MAX_TOKENS = NaN →
  wasm_encode s = Returns ts →
  wasm_encode TokenCounter.TRUNCATION_MESSAGE = Returns ms →
  wasm_encode (Uint8Array_toString (wasm_decode [])
               +:+ TokenCounter.TRUNCATION_MESSAGE) = Returns rs →
  Binding.createResponse_logged name content =
    Returns ([ {| type := "text";
                  text := Some (Uint8Array_toString (wasm_decode [])
                                +:+ TokenCounter.TRUNCATION_MESSAGE) |} ],
             []).
Proof.
  intros Ht HM Hs Hm Hr. unfold Binding.createResponse_logged.
  rewrite Ht, HM.
  rewrite (Binding_truncate_over_budget s ts ms NaN Hs eq_refl Hm).
  simpl. rewrite slice0_NaN.
  unfold Binding.countTokens. simpl. rewrite Hs. simpl. by rewrite Hr.
Qed.

Lemma createResponse_with_NaN_budget_witness :
  let rt := Examples.unparsable_budget_runtime in
  let b := Examples.piece_binding in
  BaseToolHandler.MAX_TOKENS = NaN ∧
  Binding.createResponse_logged TOOL_NAMES.LIST_FILES_IN_VAULT (JString "ok") =
    Returns ([ {| type := "text";
                  text := Some TokenCounter.TRUNCATION_MESSAGE |} ], []).
Proof.
  intros rt b. split; [reflexivity|].
  set (tokens_of := λ s, match wasm_encode s with
                           | Returns ts => ts
                           | Throws _ => []
                           end).
  exact (createResponse_with_NaN_budget rt b TOOL_NAMES.LIST_FILES_IN_VAULT
           (JString "ok") "ok" (tokens_of "ok")
           (tokens_of TokenCounter.TRUNCATION_MESSAGE)
           (tokens_of TokenCounter.TRUNCATION_MESSAGE)
           eq_refl eq_refl eq_refl eq_refl eq_refl).
Defined.

(** The search tool lists each matching file exactly once: the list it
    builds has no duplicates and holds exactly the file names occurring in
    the search results, and the text that [createResponse] makes of it and
    hands to the token budget is that list, one name per line. *)
Theorem FindInFile_lists_each_file_once
  (rt : JsRuntime) (code_unit_le : string → string → bool)
  (results : list FindInFileToolHandler.SearchResult) :
  NoDup (FindInFileToolHandler.filenames code_unit_le results) ∧
  (∀ f, f ∈ FindInFileToolHandler.filenames code_unit_le results ↔
        ∃ r, r ∈ results ∧ FindInFileToolHandler.filename r = f) ∧
  BaseToolHandler.createResponse_text
    (JArray (JString <$> FindInFileToolHandler.filenames code_unit_le results)) =
    Some (String.concat (String "010"%char "")
            (FindInFileToolHandler.filenames code_unit_le results)).
Proof.
  destruct (FindInFileFacts.filenames_spec code_unit_le results) as [H1 H2].
  split; [exact H1|]. split; [exact H2|].
  unfold BaseToolHandler.createResponse_text.
  cbn [typeof_string instanceof_Buffer Array_isArray array_items andb].
  rewrite forallb_typeof_string_fmap.
  unfold BaseToolHandler.Array_join_strings. by rewrite string_value_fmap.
Qed.
